(** * Smart Recipe Generator: a shallow embedding of [src/src/App.tsx]

    The client is one React file.  Its logic lives in the event handlers of
    three components ([HomePage], [RecipesPage], [App]) and in the two
    effects of [RecipesPage].  Each handler is embedded as a function on the
    state of the component that owns it; the asynchronous request of
    [fetchRecipes] is embedded in a small exception-and-state monad over the
    [Response] it receives.

    Built-ins of the platform (String.prototype.trim / toLowerCase /
    replace, Array.prototype.includes, Set, JSON.parse, the body of a fetch
    Response) are modelled after ECMAScript and the Fetch standard.  Strings
    range over the code units 0..255 (Latin-1): a text with other code
    units, raw or as a [\u] escape, is outside the model.  The numbers that
    the handlers compute with (servings, cooking times, indices) are
    integers. *)

From Stdlib Require Import List String Ascii ZArith NArith Bool Arith Lia.
From Stdlib Require Import DecimalString.
Import ListNotations.
Local Open Scope string_scope.

(* ================================================================== *)
(** * Strings and arrays of the platform                               *)
(* ================================================================== *)

Module Js.

(** WhiteSpace and LineTerminator code units below 256: TAB, LF, VT, FF,
    CR, SP and NBSP.  This is the set that [trim] strips and that the
    regular-expression class [\s] matches. *)
Definition isWhiteSpace (c : ascii) : bool :=
  let n := N_of_ascii c in
  (((9 <=? n) && (n <=? 13)) || (n =? 32) || (n =? 160))%N.

Fixpoint trimStart (s : string) : string :=
  match s with
  | EmptyString => EmptyString
  | String c s' => if isWhiteSpace c then trimStart s' else s
  end.

Fixpoint trimEnd (s : string) : string :=
  match s with
  | EmptyString => EmptyString
  | String c s' =>
      match trimEnd s' with
      | EmptyString => if isWhiteSpace c then EmptyString else String c EmptyString
      | t => String c t
      end
  end.

(** [s.trim()] *)
Definition trim (s : string) : string := trimEnd (trimStart s).

(** Lower-case mapping of one code unit: A-Z and the Latin-1 capitals
    U+00C0..U+00DE (the multiplication sign U+00D7 excepted) move up by
    32; every other code unit below 256 is its own lower case. *)
Definition lowerChar (c : ascii) : ascii :=
  let n := N_of_ascii c in
  if (((65 <=? n) && (n <=? 90))
      || ((192 <=? n) && (n <=? 222) && negb (n =? 215)))%N
  then ascii_of_N (n + 32) else c.

(** [s.toLowerCase()] *)
Fixpoint toLowerCase (s : string) : string :=
  match s with
  | EmptyString => EmptyString
  | String c s' => String (lowerChar c) (toLowerCase s')
  end.

(** [arr.includes(x)] on an array of strings *)
Definition includes (arr : list string) (x : string) : bool :=
  existsb (String.eqb x) arr.

(** [Array.from(new Set(arr))]: the distinct elements of [arr] in the
    order of their first occurrence.  [seen] is the set under
    construction. *)
Fixpoint uniqueFrom (seen arr : list string) : list string :=
  match arr with
  | [] => []
  | x :: rest =>
      if includes seen x then uniqueFrom seen rest
      else x :: uniqueFrom (seen ++ [x]) rest
  end.

Definition arrayFromSet (arr : list string) : list string := uniqueFrom [] arr.

(** The double quote, U+0022. *)
Definition doubleQuote : ascii := ascii_of_N 34.

(** Every code unit of [s] passes [p]. *)
Fixpoint allChars (p : ascii -> bool) (s : string) : bool :=
  match s with
  | EmptyString => true
  | String c s' => p c && allChars p s'
  end.

(** [arr.length === 0] *)
Definition isEmpty {A} (arr : list A) : bool :=
  match arr with [] => true | _ => false end.

(** Decimal rendering of a non-negative integer, as [String(n)] and
    template literals do. *)
Definition numberToString (n : N) : string :=
  NilEmpty.string_of_uint (N.to_uint n).

(** Two strings are equal under case-insensitive comparison. *)
Definition equalIgnoringCase (a b : string) : Prop :=
  toLowerCase a = toLowerCase b.

(** [s.replace(/\s/g, '+')]: every white-space code unit becomes a plus. *)
Fixpoint replaceWhiteSpace (s : string) : string :=
  match s with
  | EmptyString => EmptyString
  | String c s' => String (if isWhiteSpace c then "+"%char else c) (replaceWhiteSpace s')
  end.

End Js.

(* ================================================================== *)
(** * HomePage: the ingredient store and the servings counter         *)
(* ================================================================== *)

(** [const popularIngredients] *)
Definition popularIngredients : list string :=
  [ "Chicken"; "Beef"; "Rice"; "Pasta"; "Tomatoes"; "Onions"; "Garlic";
    "Bell Peppers"; "Cheese"; "Eggs"; "Potatoes"; "Carrots" ].

(** [const cuisines] *)
Definition cuisines : list string :=
  [ "Any"; "Italian"; "Mexican"; "Indian"; "Asian"; "American"; "Mediterranean" ].

(** [interface DietaryPreferences] *)
Record DietaryPreferences := mkDietary {
  vegetarian : bool;
  vegan : bool;
  glutenfree : bool
}.

Module HomePage.

(** The [useState] cells of [HomePage].  [imageFile] and [imagePreview]
    hold the name of the chosen file and its object URL.  [pending] is not
    a cell of the component: it records the [ingredients] array that the
    closure of a recognition request in flight has captured. *)
Record State := mkState {
  ingredients : list string;
  inputValue : string;
  dietary : DietaryPreferences;
  servings : Z;
  cuisine : string;
  imageFile : option string;
  imagePreview : option string;
  isRecognizing : bool;
  recognitionError : option string;
  pending : option (list string)
}.

(** The initial values passed to [useState]. *)
Definition initial : State :=
  {| ingredients := [];
     inputValue := "";
     dietary := mkDietary false false false;
     servings := 2;
     cuisine := "Any";
     imageFile := None;
     imagePreview := None;
     isRecognizing := false;
     recognitionError := None;
     pending := None |}.

Definition setIngredients (l : list string) (s : State) : State :=
  mkState l (inputValue s) (dietary s) (servings s) (cuisine s)
          (imageFile s) (imagePreview s) (isRecognizing s)
          (recognitionError s) (pending s).

Definition setInputValue (v : string) (s : State) : State :=
  mkState (ingredients s) v (dietary s) (servings s) (cuisine s)
          (imageFile s) (imagePreview s) (isRecognizing s)
          (recognitionError s) (pending s).

Definition setDietary (d : DietaryPreferences) (s : State) : State :=
  mkState (ingredients s) (inputValue s) d (servings s) (cuisine s)
          (imageFile s) (imagePreview s) (isRecognizing s)
          (recognitionError s) (pending s).

Definition setServings (f : Z -> Z) (s : State) : State :=
  mkState (ingredients s) (inputValue s) (dietary s) (f (servings s))
          (cuisine s) (imageFile s) (imagePreview s) (isRecognizing s)
          (recognitionError s) (pending s).

Definition setCuisine (c : string) (s : State) : State :=
  mkState (ingredients s) (inputValue s) (dietary s) (servings s) c
          (imageFile s) (imagePreview s) (isRecognizing s)
          (recognitionError s) (pending s).

(** [handleAddIngredient]: the form's submit handler. *)
Definition handleAddIngredient (s : State) : State :=
  let formattedIngredient := Js.toLowerCase (Js.trim (inputValue s)) in
  if negb (formattedIngredient =? "")
     && negb (Js.includes (ingredients s) formattedIngredient)
  then setInputValue "" (setIngredients (ingredients s ++ [formattedIngredient]) s)
  else s.

(** [addPopularIngredient]: the quick-pick buttons. *)
Definition addPopularIngredient (ingredient : string) (s : State) : State :=
  let lowerCaseIngredient := Js.toLowerCase ingredient in
  if negb (Js.includes (ingredients s) lowerCaseIngredient)
  then setIngredients (ingredients s ++ [lowerCaseIngredient]) s
  else s.

(** [handleRemoveIngredient] *)
Definition handleRemoveIngredient (ingredientToRemove : string) (s : State) : State :=
  setIngredients
    (List.filter (fun ing => negb (ing =? ingredientToRemove)) (ingredients s)) s.

(** [handleDietaryChange]: the checkbox named [name] was set to [checked].
    The three checkboxes carry the three keys of [dietary]. *)
Definition handleDietaryChange (name : string) (checked : bool) (s : State) : State :=
  let d := dietary s in
  if name =? "vegetarian" then setDietary (mkDietary checked (vegan d) (glutenfree d)) s
  else if name =? "vegan" then setDietary (mkDietary (vegetarian d) checked (glutenfree d)) s
  else if name =? "glutenfree" then setDietary (mkDietary (vegetarian d) (vegan d) checked) s
  else s.

(** [handleImageChange] with a file chosen. *)
Definition handleImageChange (file url : string) (s : State) : State :=
  mkState (ingredients s) (inputValue s) (dietary s) (servings s) (cuisine s)
          (Some file) (Some url) (isRecognizing s) None (pending s).

(** [handleRecognizeIngredients] up to the request: nothing happens
    without a file; otherwise the flag is raised, the error cleared, and
    the closure keeps the [ingredients] of this render. *)
Definition handleRecognizeIngredients (s : State) : State :=
  match imageFile s with
  | None => s
  | Some _ =>
      mkState (ingredients s) (inputValue s) (dietary s) (servings s) (cuisine s)
              (imageFile s) (imagePreview s) true None (Some (ingredients s))
  end.

(** The merge of line 165:
    [Array.from(new Set([...ingredients, ...recognized]))]. *)
Definition mergeRecognized (ingredients recognized : list string) : list string :=
  Js.arrayFromSet (ingredients ++ recognized).

(** The request of [handleRecognizeIngredients] came back with the array
    [recognized]; [captured] is the closure's [ingredients]. *)
Definition recognizeSucceeded (captured recognized : list string) (s : State) : State :=
  mkState (mergeRecognized captured recognized) (inputValue s) (dietary s)
          (servings s) (cuisine s) None None false (recognitionError s) None.

(** The request failed with message [msg]. *)
Definition recognizeFailed (msg : string) (s : State) : State :=
  mkState (ingredients s) (inputValue s) (dietary s) (servings s) (cuisine s)
          (imageFile s) (imagePreview s) false (Some msg) None.

(** The updater of the "-" button: [s => Math.max(1, s - 1)]. *)
Definition decrement (s : Z) : Z := Z.max 1 (s - 1).

(** The updater of the "+" button: [s => s + 1]. *)
Definition increment (s : Z) : Z := s + 1.

(** The two servings buttons, and a run of presses of them. *)
Inductive ServingsButton := Minus | Plus.

Definition press (b : ServingsButton) (s : Z) : Z :=
  match b with
  | Minus => decrement s
  | Plus => increment s
  end.

Definition presses (bs : list ServingsButton) (s : Z) : Z :=
  fold_left (fun s b => press b s) bs s.

(** An entry is normalized: trimming and lower-casing leave it as it is. *)
Definition normalized (x : string) : Prop := Js.toLowerCase (Js.trim x) = x.

(** No two entries of the store are equal under case-insensitive
    comparison. *)
Definition noCaseDuplicates (store : list string) : Prop :=
  forall i j a b,
    nth_error store i = Some a -> nth_error store j = Some b ->
    Js.equalIgnoringCase a b -> i = j.

(** [handleSearch]: the names of the flags that are set, in key order. *)
Definition selectedDietary (d : DietaryPreferences) : list string :=
  (if vegetarian d then ["vegetarian"] else [])
  ++ (if vegan d then ["vegan"] else [])
  ++ (if glutenfree d then ["glutenfree"] else []).

End HomePage.

(* ================================================================== *)
(** * JSON.parse                                                       *)
(* ================================================================== *)

Module Json.

#[local] Set Warnings "-register-all".

(** A parsed JSON value.  A number is kept as the exact decimal
    [m * 10^e] that its literal denotes (JSON.parse goes on to round it to
    a double; nothing below depends on the rounding).  An object is the
    list of its own properties in creation order, each key once (that an
    engine enumerates integer-like keys first is left out; no handler
    enumerates properties). *)
Inductive value :=
| JNull
| JBool (b : bool)
| JNumber (m e : Z)
| JString (s : string)
| JArray (elements : list value)
| JObject (props : list (string * value)).

(** [CreateDataProperty(obj, k, v)]: an existing key keeps its place and
    takes the new value, a new key goes last. *)
Fixpoint defineProperty (k : string) (v : value) (props : list (string * value))
  : list (string * value) :=
  match props with
  | [] => [(k, v)]
  | (k', v') :: rest =>
      if k' =? k then (k, v) :: rest else (k', v') :: defineProperty k v rest
  end.

(** Own-property lookup; [None] is [undefined]. *)
Fixpoint getProperty (k : string) (props : list (string * value)) : option value :=
  match props with
  | [] => None
  | (k', v) :: rest => if k' =? k then Some v else getProperty k rest
  end.

Inductive token :=
| TLBrace | TRBrace | TLBracket | TRBracket | TColon | TComma
| TTrue | TFalse | TNull
| TNumber (m e : Z)
| TString (s : string).

(** Where the scanner stands inside a number literal. *)
Inductive nstate :=
| NMinus      (* after the sign: a digit must follow *)
| NZero       (* integer part is the single digit 0 *)
| NInt        (* inside the integer part *)
| NPoint      (* after the point: a digit must follow *)
| NFrac       (* inside the fraction *)
| NExpMark    (* after e or E: a sign or a digit must follow *)
| NExpSign    (* after the exponent's sign: a digit must follow *)
| NExp.       (* inside the exponent *)

(** The digits read so far. *)
Record numacc := mkNum {
  neg : bool;      (* a leading minus was read *)
  mant : N;        (* integer and fraction digits, as one numeral *)
  frac : N;        (* how many of them follow the point *)
  eneg : bool;     (* the exponent is negative *)
  expo : N         (* exponent digits *)
}.

Inductive lstate :=
| LStart
| LLit (rest : string) (t : token)
| LStr (acc : string)
| LEsc (acc : string)
| LUni (acc : string) (k : nat) (v : N)
| LNum (st : nstate) (n : numacc).

(** JSON's own white space: TAB, LF, CR and SP only. *)
Definition isJsonSpace (c : ascii) : bool :=
  let n := N_of_ascii c in
  ((n =? 9) || (n =? 10) || (n =? 13) || (n =? 32))%N.

Definition digitOf (c : ascii) : option N :=
  let n := N_of_ascii c in
  if ((48 <=? n) && (n <=? 57))%N then Some (n - 48)%N else None.

Definition hexOf (c : ascii) : option N :=
  let n := N_of_ascii c in
  if ((48 <=? n) && (n <=? 57))%N then Some (n - 48)%N
  else if ((65 <=? n) && (n <=? 70))%N then Some (n - 55)%N
  else if ((97 <=? n) && (n <=? 102))%N then Some (n - 87)%N
  else None.

Definition snoc (s : string) (c : ascii) : string := s ++ String c EmptyString.

Definition numberToken (n : numacc) : token :=
  TNumber (if neg n then - Z.of_N (mant n) else Z.of_N (mant n))
          ((if eneg n then - Z.of_N (expo n) else Z.of_N (expo n)) - Z.of_N (frac n)).

(** The scanner between two tokens. *)
Definition start (c : ascii) : option (list token * lstate) :=
  if isJsonSpace c then Some ([], LStart)
  else if (c =? "{")%char then Some ([TLBrace], LStart)
  else if (c =? "}")%char then Some ([TRBrace], LStart)
  else if (c =? "[")%char then Some ([TLBracket], LStart)
  else if (c =? "]")%char then Some ([TRBracket], LStart)
  else if (c =? ":")%char then Some ([TColon], LStart)
  else if (c =? ",")%char then Some ([TComma], LStart)
  else if (c =? "t")%char then Some ([], LLit "rue" TTrue)
  else if (c =? "f")%char then Some ([], LLit "alse" TFalse)
  else if (c =? "n")%char then Some ([], LLit "ull" TNull)
  else if (c =? Js.doubleQuote)%char then Some ([], LStr "")
  else if (c =? "-")%char then Some ([], LNum NMinus (mkNum true 0 0 false 0))
  else match digitOf c with
       | Some 0%N => Some ([], LNum NZero (mkNum false 0 0 false 0))
       | Some d => Some ([], LNum NInt (mkNum false d 0 false 0))
       | None => None
       end.

(** The literal is over at [c]: emit it and scan [c] afresh. *)
Definition endNumber (n : numacc) (c : ascii) : option (list token * lstate) :=
  match start c with
  | Some (toks, st) => Some (numberToken n :: toks, st)
  | None => None
  end.

Definition isExpMark (c : ascii) : bool := ((c =? "e") || (c =? "E"))%char.

Definition stepNumber (st : nstate) (n : numacc) (c : ascii)
  : option (list token * lstate) :=
  let digit d := mkNum (neg n) (10 * mant n + d) (frac n) (eneg n) (expo n) in
  let fdigit d := mkNum (neg n) (10 * mant n + d) (frac n + 1) (eneg n) (expo n) in
  let edigit d := mkNum (neg n) (mant n) (frac n) (eneg n) (10 * expo n + d) in
  match st with
  | NMinus =>
      match digitOf c with
      | Some 0%N => Some ([], LNum NZero n)
      | Some d => Some ([], LNum NInt (digit d))
      | None => None
      end
  | NZero =>
      if (c =? ".")%char then Some ([], LNum NPoint n)
      else if isExpMark c then Some ([], LNum NExpMark n)
      else endNumber n c
  | NInt =>
      match digitOf c with
      | Some d => Some ([], LNum NInt (digit d))
      | None =>
          if (c =? ".")%char then Some ([], LNum NPoint n)
          else if isExpMark c then Some ([], LNum NExpMark n)
          else endNumber n c
      end
  | NPoint =>
      match digitOf c with
      | Some d => Some ([], LNum NFrac (fdigit d))
      | None => None
      end
  | NFrac =>
      match digitOf c with
      | Some d => Some ([], LNum NFrac (fdigit d))
      | None => if isExpMark c then Some ([], LNum NExpMark n) else endNumber n c
      end
  | NExpMark =>
      if (c =? "+")%char then Some ([], LNum NExpSign n)
      else if (c =? "-")%char
      then Some ([], LNum NExpSign (mkNum (neg n) (mant n) (frac n) true (expo n)))
      else match digitOf c with
           | Some d => Some ([], LNum NExp (edigit d))
           | None => None
           end
  | NExpSign =>
      match digitOf c with
      | Some d => Some ([], LNum NExp (edigit d))
      | None => None
      end
  | NExp =>
      match digitOf c with
      | Some d => Some ([], LNum NExp (edigit d))
      | None => endNumber n c
      end
  end.

(** One code unit of input.  Inside a string literal a control character
    is refused, a backslash opens an escape; an escape [\uXXXX] above
    U+00FF names a code unit outside the modelled strings and gets no
    result, though JSON.parse takes it: [modelled] below holds of the
    texts without such an escape, and what is stated of every response
    is stated of those. *)
Definition step (st : lstate) (c : ascii) : option (list token * lstate) :=
  match st with
  | LStart => start c
  | LLit EmptyString _ => None
  | LLit (String x rest) t =>
      if (c =? x)%char
      then match rest with
           | EmptyString => Some ([t], LStart)
           | _ => Some ([], LLit rest t)
           end
      else None
  | LStr acc =>
      if (c =? Js.doubleQuote)%char then Some ([TString acc], LStart)
      else if (c =? "\")%char then Some ([], LEsc acc)
      else if (N_of_ascii c <? 32)%N then None
      else Some ([], LStr (snoc acc c))
  | LEsc acc =>
      if (c =? Js.doubleQuote)%char then Some ([], LStr (snoc acc Js.doubleQuote))
      else if (c =? "\")%char then Some ([], LStr (snoc acc "\"))
      else if (c =? "/")%char then Some ([], LStr (snoc acc "/"))
      else if (c =? "b")%char then Some ([], LStr (snoc acc (ascii_of_N 8)))
      else if (c =? "f")%char then Some ([], LStr (snoc acc (ascii_of_N 12)))
      else if (c =? "n")%char then Some ([], LStr (snoc acc (ascii_of_N 10)))
      else if (c =? "r")%char then Some ([], LStr (snoc acc (ascii_of_N 13)))
      else if (c =? "t")%char then Some ([], LStr (snoc acc (ascii_of_N 9)))
      else if (c =? "u")%char then Some ([], LUni acc 4 0)
      else None
  | LUni acc k v =>
      match hexOf c with
      | None => None
      | Some d =>
          let v' := (16 * v + d)%N in
          match k with
          | 0%nat => None
          | 1%nat => if (v' <? 256)%N then Some ([], LStr (snoc acc (ascii_of_N v'))) else None
          | S k' => Some ([], LUni acc k' v')
          end
      end
  | LNum nst n => stepNumber nst n c
  end.

(** End of input. *)
Definition finish (st : lstate) : option (list token) :=
  match st with
  | LStart => Some []
  | LNum NZero n | LNum NInt n | LNum NFrac n | LNum NExp n => Some [numberToken n]
  | _ => None
  end.

Fixpoint run (st : lstate) (s : string) : option (list token) :=
  match s with
  | EmptyString => finish st
  | String c s' =>
      match step st c with
      | None => None
      | Some (toks, st') =>
          match run st' s' with
          | None => None
          | Some rest => Some (toks ++ rest)%list
          end
      end
  end.

Definition lex (s : string) : option (list token) := run LStart s.

(** The scanner stands before the last digit of an escape that names a
    code unit above U+00FF. *)
Definition leavesModel (st : lstate) (c : ascii) : bool :=
  match st with
  | LUni _ 1%nat v =>
      match hexOf c with
      | Some d => (256 <=? 16 * v + d)%N
      | None => false
      end
  | _ => false
  end.

Fixpoint meetsHighEscape (st : lstate) (s : string) : bool :=
  match s with
  | EmptyString => false
  | String c s' =>
      leavesModel st c
      || match step st c with
         | Some (_, st') => meetsHighEscape st' s'
         | None => false
         end
  end.

(** The text stays within the modelled strings: scanning it never comes
    upon an escape above U+00FF.  For such a text the scanner gives no
    result only where JSON.parse throws its SyntaxError. *)
Definition modelled (text : string) : bool := negb (meetsHighEscape LStart text).

(** The states that the scanner gets into: what is still expected of a
    literal is a rest of [true], [false] or [null]. *)
Definition wfState (st : lstate) : Prop :=
  match st with
  | LLit rest _ => Js.allChars (fun c => negb (c =? "`")%char) rest = true
  | _ => True
  end.

(** The grammar over tokens.  [parseElements] reads what follows an
    element of an array, [parseMembers] what follows a member of an
    object; [fuel] bounds the depth of the calls. *)
Fixpoint parseValue (fuel : nat) (ts : list token) : option (value * list token) :=
  match fuel with
  | O => None
  | S f =>
      match ts with
      | TNull :: r => Some (JNull, r)
      | TTrue :: r => Some (JBool true, r)
      | TFalse :: r => Some (JBool false, r)
      | TNumber m e :: r => Some (JNumber m e, r)
      | TString s :: r => Some (JString s, r)
      | TLBracket :: TRBracket :: r => Some (JArray [], r)
      | TLBracket :: r =>
          match parseValue f r with
          | Some (v, r1) => parseElements f [v] r1
          | None => None
          end
      | TLBrace :: TRBrace :: r => Some (JObject [], r)
      | TLBrace :: TString k :: TColon :: r =>
          match parseValue f r with
          | Some (v, r1) => parseMembers f [(k, v)] r1
          | None => None
          end
      | _ => None
      end
  end
with parseElements (fuel : nat) (acc : list value) (ts : list token)
  : option (value * list token) :=
  match fuel with
  | O => None
  | S f =>
      match ts with
      | TRBracket :: r => Some (JArray acc, r)
      | TComma :: r =>
          match parseValue f r with
          | Some (v, r1) => parseElements f (acc ++ [v])%list r1
          | None => None
          end
      | _ => None
      end
  end
with parseMembers (fuel : nat) (acc : list (string * value)) (ts : list token)
  : option (value * list token) :=
  match fuel with
  | O => None
  | S f =>
      match ts with
      | TRBrace :: r => Some (JObject acc, r)
      | TComma :: TString k :: TColon :: r =>
          match parseValue f r with
          | Some (v, r1) => parseMembers f (defineProperty k v acc) r1
          | None => None
          end
      | _ => None
      end
  end.

Definition parseTokens (ts : list token) : option value :=
  match parseValue (S (List.length ts)) ts with
  | Some (v, []) => Some v
  | _ => None
  end.

(** [JSON.parse(text)]; [None] is the SyntaxError. *)
Definition parse (text : string) : option value :=
  match lex text with
  | Some ts => parseTokens ts
  | None => None
  end.

(** What the parser [p] returns with fuel [f] it returns with any fuel,
    from the number of tokens it consumes on. *)
Definition fuelBounded {A} (p : nat -> list token -> option (A * list token)) (f : nat) : Prop :=
  forall ts v r,
    p f ts = Some (v, r) ->
    (List.length r < List.length ts)%nat
    /\ forall g, (List.length ts - List.length r <= g)%nat -> p g ts = Some (v, r).

End Json.

(* ================================================================== *)
(** * RecipesPage: the recipe client                                   *)
(* ================================================================== *)

(** What the run-time attaches to the errors it raises itself, and how it
    renders a non-string value as text.  These differ between engines and
    are not fixed by the source. *)
Record Platform := mkPlatform {
  (* TypeError of [text()] or [json()] on a body that was read before *)
  bodyUsedMessage : string;
  (* SyntaxError of JSON.parse on the given text *)
  syntaxErrorMessage : string -> string;
  (* TypeError of reading a property of [null] *)
  nullPropertyMessage : string;
  (* TypeError of calling [.map] on a value that has none *)
  notAFunctionMessage : string;
  (* ToString of a parsed value that is not a string *)
  toStringValue : Json.value -> string
}.

Module RecipeClient.

Import Json.

(** A fetch Response: the status and the body text; [None] is the null
    body of a response that carries none. *)
Record Response := mkResponse {
  status : N;
  body : option string
}.

(** [response.ok] *)
Definition ok (r : Response) : bool := ((200 <=? status r) && (status r <=? 299))%N.

(** A thrown value.  Everything thrown in [fetchRecipes] is an Error
    object (Error, SyntaxError or TypeError); it is kept as its
    [message]. *)
Inductive exn := Error (message : string).

Definition message (e : exn) : string := let (m) := e in m.

(** Computations that may throw and that may read the body of the
    response: the state is the body's [bodyUsed] flag. *)
Definition M (A : Type) : Type := bool -> (A + exn) * bool.

Definition ret {A} (a : A) : M A := fun used => (inl a, used).
Definition throw {A} (e : exn) : M A := fun used => (inr e, used).
Definition bind {A B} (m : M A) (k : A -> M B) : M B :=
  fun used =>
    match m used with
    | (inl a, used') => k a used'
    | (inr e, used') => (inr e, used')
    end.
(** [try { m } catch (e) { handler e }] *)
Definition tryCatch {A} (m : M A) (handler : exn -> M A) : M A :=
  fun used =>
    match m used with
    | (inl a, used') => (inl a, used')
    | (inr e, used') => handler e used'
    end.

Notation "x <- m ;; k" := (bind m (fun x => k))
  (at level 61, m at next level, right associativity).

Section WithPlatform.

Variable P : Platform.

(** Reading the body (the Fetch standard's "consume body"): a body
    that was read before is refused with a TypeError; otherwise the
    whole text is handed over and the body is marked as used.  A null
    body reads as the empty text and is never marked. *)
Definition consumeBody (r : Response) : M string :=
  fun used =>
    match body r with
    | None => (inl "", used)
    | Some t =>
        if used then (inr (Error (bodyUsedMessage P)), used)
        else (inl t, true)
    end.

(** [await response.text()] *)
Definition text (r : Response) : M string := consumeBody r.

(** [JSON.parse(t)] *)
Definition JSON_parse (t : string) : M value :=
  match Json.parse t with
  | Some v => ret v
  | None => throw (Error (syntaxErrorMessage P t))
  end.

(** [await response.json()] *)
Definition json (r : Response) : M value :=
  t <- consumeBody r ;; JSON_parse t.

(** [errorData.error]: reading the property throws on [null]; an
    object answers with its own property; every other parsed value has
    no such property. *)
Definition errorProperty (errorData : value) : M (option value) :=
  match errorData with
  | JNull => throw (Error (nullPropertyMessage P))
  | JObject props => ret (getProperty "error" props)
  | _ => ret None
  end.

(** ToBoolean of a parsed value.  A number is falsy when it is zero as a
    double: when the literal is zero, or so small that it rounds to zero,
    which is at magnitude [2^-1075] (half the least double, a tie that goes
    to the even zero) and below. *)
Definition truthy (v : value) : bool :=
  match v with
  | JNull => false
  | JBool b => b
  | JNumber m e =>
      negb ((m =? 0)%Z || ((e <? 0)%Z && (Z.abs m * 2 ^ 1075 <=? 10 ^ (- e))%Z))
  | JString s => negb (s =? "")
  | JArray _ | JObject _ => true
  end.

Definition toText (v : value) : string :=
  match v with
  | JString s => s
  | _ => toStringValue P v
  end.

(** [new Error(errorData.error || 'Failed to fetch recipes from the server.')] *)
Definition serverError (errorData : value) : M exn :=
  e <- errorProperty errorData ;;
  ret (Error (match e with
              | Some v => if truthy v then toText v
                          else "Failed to fetch recipes from the server."
              | None => "Failed to fetch recipes from the server."
              end)).

(** Lines 396-399, the [try] block. *)
Definition tryBlock (r : Response) : M unit :=
  errorData <- json r ;;
  err <- serverError errorData ;;
  throw err.

(** Line 400, the [catch] clause; it does not look at what it caught. *)
Definition catchClause (r : Response) (e : exn) : M unit :=
  t <- text r ;;
  throw (Error ("Server returned status " ++ Js.numberToString (status r)
                ++ ": " ++ t)).

(** Lines 395-402, the body of [if (!response.ok)].  The [throw] of line
    398 stands inside the [try] block, so the [catch] clause receives it
    like any failure of [response.json()]. *)
Definition nonOkBranch (r : Response) : M unit :=
  tryCatch (tryBlock r) (catchClause r).

(** Some [rest] when [s] is [p ++ rest]. *)
Fixpoint stripPrefix (p s : string) : option string :=
  match p, s with
  | EmptyString, _ => Some s
  | String a p', String b s' => if (a =? b)%char then stripPrefix p' s' else None
  | String _ _, EmptyString => None
  end.

(** [s.replace(/^```json\s*/, '')]: the pattern is anchored at the
    start, [\s*] is greedy. *)
Definition replaceOpeningFence (s : string) : string :=
  match stripPrefix "```json" s with
  | Some rest => Js.trimStart rest
  | None => s
  end.

(** [s.replace(/```$/, '')]: without the [m] flag [$] is the end of the
    input, so the three backquotes go only when they are its last three
    code units. *)
Fixpoint replaceClosingFence (s : string) : string :=
  match s with
  | EmptyString => EmptyString
  | String c s' => if s =? "```" then EmptyString else String c (replaceClosingFence s')
  end.

(** Line 405 *)
Definition cleanedText (responseText : string) : string :=
  replaceClosingFence (replaceOpeningFence responseText).

(** The own enumerable properties that an object spread copies: those
    of an object, the indexed elements of an array, the indexed code
    units of a string, none of the other values. *)
Fixpoint indexed {A} (f : A -> value) (i : N) (l : list A) : list (string * value) :=
  match l with
  | [] => []
  | a :: rest => (Js.numberToString i, f a) :: indexed f (N.succ i) rest
  end.

Definition spread (v : value) : list (string * value) :=
  match v with
  | JObject props => props
  | JArray elements => indexed (fun e => e) 0 elements
  | JString s =>
      indexed (fun c => JString (String c EmptyString)) 0 (list_ascii_of_string s)
  | _ => []
  end.

(** [parsedRecipes.map((recipe, index) => ({...recipe, id: index}))],
    from index [index] on. *)
Fixpoint mapWithId (index : nat) (parsedRecipes : list value) : list value :=
  match parsedRecipes with
  | [] => []
  | recipe :: rest =>
      JObject (defineProperty "id" (JNumber (Z.of_nat index) 0) (spread recipe))
      :: mapWithId (S index) rest
  end.

Definition recipesWithIds (parsedRecipes : list value) : list value :=
  mapWithId 0 parsedRecipes.

(** [parsedRecipes.map(...)] on whatever JSON.parse returned. *)
Definition mapParsed (parsedRecipes : value) : M (list value) :=
  match parsedRecipes with
  | JArray elements => ret (recipesWithIds elements)
  | JNull => throw (Error (nullPropertyMessage P))
  | _ => throw (Error (notAFunctionMessage P))
  end.

(** The text that a first read of the body hands over. *)
Definition bodyText (r : Response) : string :=
  match body r with
  | Some t => t
  | None => ""
  end.

(** A body [B] between an opening fence with the white space [ws1] after
    it and a closing fence with the white space [ws2] before it; in the
    specification's example both are one line feed. *)
Definition fenced (ws1 B ws2 : string) : string :=
  "```json" ++ ws1 ++ B ++ ws2 ++ "```".

Definition lineFeed : string := String (ascii_of_N 10) EmptyString.

(** Lines 395-408: from the response to [recipesWithIds]. *)
Definition fetchBody (r : Response) : M (list value) :=
  _ <- (if negb (ok r) then nonOkBranch r else ret tt) ;;
  responseText <- text r ;;
  parsedRecipes <- JSON_parse (cleanedText responseText) ;;
  mapParsed parsedRecipes.

(** The cells of [RecipesPage] that [fetchRecipes] writes, with the
    recipes as parsed (the [Recipe[]] annotation is not checked at run
    time). *)
Record Cells := mkCells {
  recipes : list value;
  isLoading : bool;
  error : option string
}.

(** [fetchRecipes] once the response [r] has arrived: the loading flag
    was raised and the error cleared before the request; the [try]
    block stores the recipes, the [catch] clause stores the message of
    what was thrown, [finally] lowers the flag. *)
Definition fetchRecipes (r : Response) (before : Cells) : Cells :=
  match fst (fetchBody r false) with
  | inl recipesWithIds => mkCells recipesWithIds false None
  | inr err => mkCells (recipes before) false (Some (message err))
  end.

End WithPlatform.

End RecipeClient.

(** A platform for the examples.  The message for a body read twice is
    Chromium's; the other wordings are placeholders, shorter than what an
    engine prints. *)
Definition chromium : Platform :=
  {| bodyUsedMessage := "Failed to execute 'text' on 'Response': body stream already read";
     syntaxErrorMessage := fun _ => "Unexpected token in JSON";
     nullPropertyMessage := "Cannot read properties of null";
     notAFunctionMessage := "parsedRecipes.map is not a function";
     toStringValue := fun _ => "[object Object]" |}.

(* ================================================================== *)
(** * HomePage: the recognition client                                 *)
(* ================================================================== *)

Module RecognitionClient.

Import Json RecipeClient.

(** What the request of [handleRecognizeIngredients] (lines 153-166) ends
    in: the names that the spread of [recognized] puts behind the stored
    ones, the message of what was thrown, or an array with something other
    than strings in it, which [ingredients : string[]] has no place for. *)
Inductive Answer :=
| Names (recognized : list string)
| Refused (msg : string)
| Untyped.

Fixpoint asStrings (l : list value) : option (list string) :=
  match l with
  | [] => Some []
  | JString s :: rest =>
      match asStrings rest with
      | Some names => Some (s :: names)
      | None => None
      end
  | _ => None
  end.

Section WithPlatform.

Variable P : Platform.

(** The message of the TypeError for spreading a value that cannot be
    iterated. *)
Variable notIterableMessage : string.

(** [new Error(errorData.error || 'Failed to recognize ingredients.')] *)
Definition serverError (errorData : value) : M exn :=
  e <- errorProperty P errorData ;;
  ret (Error (match e with
              | Some v => if truthy v then toText P v
                          else "Failed to recognize ingredients."
              | None => "Failed to recognize ingredients."
              end)).

(** Lines 159-162, the body of [if (!response.ok)]; no [try] stands
    around it. *)
Definition nonOkBranch (r : Response) : M unit :=
  errorData <- json P r ;;
  err <- serverError errorData ;;
  throw err.

(** [...recognized]: the elements of an array, the code units of a
    string; the other parsed values cannot be iterated. *)
Definition iterate (recognized : value) : M (list value) :=
  match recognized with
  | JArray elements => ret elements
  | JString s =>
      ret (List.map (fun c => JString (String c EmptyString)) (list_ascii_of_string s))
  | _ => throw (Error notIterableMessage)
  end.

(** Lines 159-165, from the response to what [...recognized] yields. *)
Definition recognizeBody (r : Response) : M (list value) :=
  _ <- (if negb (ok r) then nonOkBranch r else ret tt) ;;
  recognized <- json P r ;;
  iterate recognized.

Definition answer (r : Response) : Answer :=
  match fst (recognizeBody r false) with
  | inl elements =>
      match asStrings elements with
      | Some names => Names names
      | None => Untyped
      end
  | inr err => Refused (message err)
  end.

(** The cells of [HomePage] once the response [r] was dealt with, [try],
    [catch] and [finally]; [captured] is the closure's [ingredients]. *)
Definition finished (r : Response) (captured : list string) (s : HomePage.State)
  : option HomePage.State :=
  match answer r with
  | Names recognized => Some (HomePage.recognizeSucceeded captured recognized s)
  | Refused msg => Some (HomePage.recognizeFailed msg s)
  | Untyped => None
  end.

End WithPlatform.

End RecognitionClient.

(* ================================================================== *)
(** * RecipeCard and RecipeModal                                       *)
(* ================================================================== *)

Module RecipeCard.

(** The [src] of the card's image (line 305): the title with its white
    space replaced, behind the address of the placeholder service. *)
Definition imageSrc (title : string) : string :=
  "https://placehold.co/600x400/52525b/FFFFFF?text=" ++ Js.replaceWhiteSpace title.

(** [recipe.servings || 'N/A'] (line 311) *)
Definition servingsLabel (servings : option string) : string :=
  match servings with
  | Some s => if s =? "" then "N/A" else s
  | None => "N/A"
  end.

End RecipeCard.

(* ================================================================== *)
(** * RecipesPage: the filter engine                                   *)
(* ================================================================== *)

(** [l1] is [l2] with some elements left out, the others in their order. *)
Inductive Subsequence {A : Type} : list A -> list A -> Prop :=
| sub_nil : Subsequence [] []
| sub_skip x l1 l2 : Subsequence l1 l2 -> Subsequence l1 (x :: l2)
| sub_keep x l1 l2 : Subsequence l1 l2 -> Subsequence (x :: l1) (x :: l2).

Module Recipe.

(** [interface Recipe] *)
Record t := mk {
  id : Z;
  title : string;
  imageUrl : string;
  ingredients : list string;
  cookingTime : Z;
  difficulty : string;
  dietary : list string;
  rating : Z;
  description : option string;
  instructions : option (list string);
  nutritionalInfo : option string;
  servings : option string
}.

End Recipe.

Module RecipesPage.

(** The [useState] cells of [RecipesPage], with the recipes typed as the
    component declares them. *)
Record State := mkState {
  recipes : list Recipe.t;
  isLoading : bool;
  error : option string;
  difficultyFilter : list string;
  maxTimeFilter : Z;
  filteredRecipes : list Recipe.t
}.

(** The initial values passed to [useState]. *)
Definition initial : State :=
  {| recipes := [];
     isLoading := true;
     error := None;
     difficultyFilter := [];
     maxTimeFilter := 120;
     filteredRecipes := [] |}.

(** The second effect (lines 421-428): the value it hands to
    [setFilteredRecipes]. *)
Definition filterEffect (recipes : list Recipe.t) (difficultyFilter : list string)
           (maxTimeFilter : Z) : list Recipe.t :=
  let tempRecipes := recipes in
  let tempRecipes :=
    if (0 <? List.length difficultyFilter)%nat
    then List.filter (fun recipe => Js.includes difficultyFilter (Recipe.difficulty recipe))
                     tempRecipes
    else tempRecipes in
  List.filter (fun recipe => (Recipe.cookingTime recipe <=? maxTimeFilter)%Z) tempRecipes.

(** The output as the specification words it, for comparison with
    [filterEffect]: a recipe is kept when "the difficulty set is empty or
    holds its difficulty" and "its cookingTime is at most the bound". *)
Definition keeps (D : list string) (T : Z) (r : Recipe.t) : bool :=
  (Js.isEmpty D || Js.includes D (Recipe.difficulty r))
  && (Recipe.cookingTime r <=? T)%Z.

(** The state once the effect has run: [setFilteredRecipes(tempRecipes)].
    React runs the effect after it has committed the render in which one
    of [recipes], [difficultyFilter], [maxTimeFilter] changed, so the
    handlers below leave [filteredRecipes] as it is and the effect is a
    step of its own. *)
Definition runFilterEffect (s : State) : State :=
  mkState (recipes s) (isLoading s) (error s) (difficultyFilter s) (maxTimeFilter s)
          (filterEffect (recipes s) (difficultyFilter s) (maxTimeFilter s)).

(** The updater of [handleDifficultyToggle]. *)
Definition toggle (difficulty : string) (prev : list string) : list string :=
  if Js.includes prev difficulty
  then List.filter (fun d => negb (d =? difficulty)) prev
  else (prev ++ [difficulty])%list.

Definition handleDifficultyToggle (difficulty : string) (s : State) : State :=
  mkState (recipes s) (isLoading s) (error s) (toggle difficulty (difficultyFilter s))
          (maxTimeFilter s) (filteredRecipes s).

(** The slider's [onChange]. *)
Definition setMaxTimeFilter (t : Z) (s : State) : State :=
  mkState (recipes s) (isLoading s) (error s) (difficultyFilter s) t (filteredRecipes s).

(** [fetchRecipes] ends well: [setRecipes] and, in [finally],
    [setIsLoading(false)]. *)
Definition fetchLoaded (recipesWithIds : list Recipe.t) (s : State) : State :=
  mkState recipesWithIds false (error s) (difficultyFilter s) (maxTimeFilter s)
          (filteredRecipes s).

(** [fetchRecipes] ends in its [catch] clause. *)
Definition fetchFailed (msg : string) (s : State) : State :=
  mkState (recipes s) false (Some msg) (difficultyFilter s) (maxTimeFilter s)
          (filteredRecipes s).

(** The filter panel is rendered: [!isLoading && !error && recipes.length > 0]. *)
Definition filtersShown (s : State) : bool :=
  negb (isLoading s)
  && match error s with None => true | Some m => m =? "" end
  && (0 <? List.length (recipes s))%nat.

(** The cards are rendered: [!isLoading && !error && filteredRecipes.length > 0]. *)
Definition cardsShown (s : State) : bool :=
  negb (isLoading s)
  && match error s with None => true | Some m => m =? "" end
  && (0 <? List.length (filteredRecipes s))%nat.

(** The spinner is rendered: [isLoading]. *)
Definition spinnerShown (s : State) : bool := isLoading s.

(** The error panel is rendered: [error], a message that is not empty. *)
Definition errorShown (s : State) : bool :=
  match error s with None => false | Some m => negb (m =? "") end.

(** "No Recipes Match Your Filters" is rendered:
    [!isLoading && !error && (recipes.length > 0 && filteredRecipes.length === 0)]. *)
Definition noMatchShown (s : State) : bool :=
  negb (isLoading s)
  && match error s with None => true | Some m => m =? "" end
  && ((0 <? List.length (recipes s))%nat && (List.length (filteredRecipes s) =? 0)%nat).

(** "No Recipes Found" is rendered: [!isLoading && !error && recipes.length === 0]. *)
Definition noFoundShown (s : State) : bool :=
  negb (isLoading s)
  && match error s with None => true | Some m => m =? "" end
  && (List.length (recipes s) =? 0)%nat.

(** The five blocks below the filter panel, in the order of the JSX. *)
Definition panels (s : State) : list bool :=
  [spinnerShown s; errorShown s; cardsShown s; noMatchShown s; noFoundShown s].

End RecipesPage.

(* ================================================================== *)
(** * App: the view router                                             *)
(* ================================================================== *)

Module App.

(** The two values that [page] ever holds, ['home'] and ['recipes']. *)
Inductive Page := home | recipes.

Record SearchParams := mkSearchParams {
  ingredients : list string;
  dietary : list string;
  servings : Z;
  cuisine : string
}.

(** The [useState] cells of [App]. *)
Record State := mkState {
  page : Page;
  searchParams : SearchParams;
  selectedRecipe : option Recipe.t
}.

Definition initial : State :=
  {| page := home;
     searchParams := mkSearchParams [] [] 2 "Any";
     selectedRecipe := None |}.

(** [handleFindRecipes] *)
Definition handleFindRecipes (ingredients dietary : list string) (servings : Z)
           (cuisine : string) (s : State) : State :=
  mkState recipes (mkSearchParams ingredients dietary servings cuisine) (selectedRecipe s).

(** [handleBackToHome] *)
Definition handleBackToHome (s : State) : State :=
  mkState home (searchParams s) (selectedRecipe s).

(** [setSelectedRecipe], as [onRecipeSelect] and in the modal's [onClose]. *)
Definition setSelectedRecipe (r : option Recipe.t) (s : State) : State :=
  mkState (page s) (searchParams s) r.

(** The modal is rendered: [selectedRecipe && <RecipeModal .../>]. *)
Definition modalShown (s : State) : bool :=
  match selectedRecipe s with Some _ => true | None => false end.

End App.

Module Ui.

(** The child that [App] has mounted, with the child's own state.  React
    keeps the state of a component for as long as it stays mounted;
    [page === 'home' && <HomePage/>] turning false unmounts [HomePage] and
    drops its state, and a later mount starts again from the initial
    values of its [useState] calls.  The same holds for [RecipesPage]. *)
Inductive Child :=
| HomeMounted (h : HomePage.State)
| RecipesMounted (r : RecipesPage.State).

Record State := mkState {
  app : App.State;
  child : Child
}.

Definition initial : State := mkState App.initial (HomeMounted HomePage.initial).

(** Rendering [App] again after one of its cells changed. *)
Definition render (a : App.State) (old : Child) : State :=
  mkState a
    match App.page a, old with
    | App.home, HomeMounted h => HomeMounted h
    | App.home, RecipesMounted _ => HomeMounted HomePage.initial
    | App.recipes, RecipesMounted r => RecipesMounted r
    | App.recipes, HomeMounted _ => RecipesMounted RecipesPage.initial
    end.

(** What the user and the two services can do.  Buttons that are
    rendered once per element of a list are named by the element's
    position. *)
Inductive Event :=
| TypeInput (v : string)            (* the text field's onChange *)
| SubmitAdd                         (* the form's onSubmit *)
| ClickPopular (i : nat)            (* a quick-pick button *)
| ClickRemove (i : nat)             (* the cross on an ingredient chip *)
| ClickDietary (i : nat)            (* one of the three checkboxes *)
| ChooseImage (file url : string)   (* the file input's onChange *)
| ClickRecognize                    (* "Find Ingredients from Photo" *)
| RecognizeOk (recognized : list string)
| RecognizeFailed (msg : string)
| ClickMinus
| ClickPlus
| ChooseCuisine (i : nat)
| ClickFind                         (* "Find Recipes!" *)
| FetchLoaded (recipesWithIds : list Recipe.t)
| FetchFailed (msg : string)
| FilterEffect                      (* the effect of lines 421-428 runs *)
| ClickDifficulty (i : nat)
| SlideMaxTime (t : Z)
| ClickCard (i : nat)
| ClickBack
| ClickClose.                       (* the cross of the modal *)

Definition dietaryKeys : list string := ["vegetarian"; "vegan"; "glutenfree"].

Definition dietaryFlag (name : string) (d : DietaryPreferences) : bool :=
  if name =? "vegetarian" then vegetarian d
  else if name =? "vegan" then vegan d
  else glutenfree d.

(** An event on the mounted [HomePage]; [None] when its control is not
    rendered or is disabled. *)
Definition fireHome (e : Event) (a : App.State) (h : HomePage.State) : option State :=
  let stay h' := Some (mkState a (HomeMounted h')) in
  match e with
  | TypeInput v => stay (HomePage.setInputValue v h)
  | SubmitAdd => stay (HomePage.handleAddIngredient h)
  | ClickPopular i =>
      match nth_error popularIngredients i with
      | Some ing => stay (HomePage.addPopularIngredient ing h)
      | None => None
      end
  | ClickRemove i =>
      match nth_error (HomePage.ingredients h) i with
      | Some ing => stay (HomePage.handleRemoveIngredient ing h)
      | None => None
      end
  | ClickDietary i =>
      match nth_error dietaryKeys i with
      | Some name =>
          stay (HomePage.handleDietaryChange
                  name (negb (dietaryFlag name (HomePage.dietary h))) h)
      | None => None
      end
  | ChooseImage file url => stay (HomePage.handleImageChange file url h)
  | ClickRecognize =>
      match HomePage.imageFile h with
      | Some _ => if HomePage.isRecognizing h then None
                  else stay (HomePage.handleRecognizeIngredients h)
      | None => None
      end
  | RecognizeOk recognized =>
      match HomePage.pending h with
      | Some captured => stay (HomePage.recognizeSucceeded captured recognized h)
      | None => None
      end
  | RecognizeFailed msg =>
      match HomePage.pending h with
      | Some _ => stay (HomePage.recognizeFailed msg h)
      | None => None
      end
  | ClickMinus =>
      if (HomePage.servings h <=? 1)%Z then None
      else stay (HomePage.setServings HomePage.decrement h)
  | ClickPlus => stay (HomePage.setServings HomePage.increment h)
  | ChooseCuisine i =>
      match nth_error cuisines i with
      | Some c => stay (HomePage.setCuisine c h)
      | None => None
      end
  | ClickFind =>
      if Js.isEmpty (HomePage.ingredients h) then None
      else Some (render (App.handleFindRecipes
                           (HomePage.ingredients h)
                           (HomePage.selectedDietary (HomePage.dietary h))
                           (HomePage.servings h) (HomePage.cuisine h) a)
                        (HomeMounted h))
  | _ => None
  end.

(** An event on the mounted [RecipesPage].  The filter effect is an event
    like the others: between the render that a handler causes and the run
    of the effect the screen shows the new cells with the list of before,
    and the controls act on what is shown. *)
Definition fireRecipes (e : Event) (a : App.State) (r : RecipesPage.State) : option State :=
  let stay r' := Some (mkState a (RecipesMounted r')) in
  match e with
  | FetchLoaded recipesWithIds =>
      if RecipesPage.isLoading r then stay (RecipesPage.fetchLoaded recipesWithIds r)
      else None
  | FetchFailed msg =>
      if RecipesPage.isLoading r then stay (RecipesPage.fetchFailed msg r) else None
  | FilterEffect => stay (RecipesPage.runFilterEffect r)
  | ClickDifficulty i =>
      match nth_error ["Easy"; "Medium"; "Hard"] i with
      | Some d => if RecipesPage.filtersShown r
                  then stay (RecipesPage.handleDifficultyToggle d r) else None
      | None => None
      end
  | SlideMaxTime t =>
      if RecipesPage.filtersShown r
         && (10 <=? t)%Z && (t <=? 120)%Z && ((t mod 5) =? 0)%Z
      then stay (RecipesPage.setMaxTimeFilter t r) else None
  | ClickCard i =>
      match nth_error (RecipesPage.filteredRecipes r) i with
      | Some recipe =>
          if RecipesPage.cardsShown r
          then Some (render (App.setSelectedRecipe (Some recipe) a) (RecipesMounted r))
          else None
      | None => None
      end
  | ClickBack => Some (render (App.handleBackToHome a) (RecipesMounted r))
  | _ => None
  end.

(** One event.  The modal's cross is there whenever a recipe is
    selected, whichever page is shown; the other controls belong to the
    mounted child.  The modal lies over the page without disabling what
    is beneath it, so those controls still answer (to the keyboard). *)
Definition fire (e : Event) (s : State) : option State :=
  match e with
  | ClickClose =>
      if App.modalShown (app s)
      then Some (render (App.setSelectedRecipe None (app s)) (child s))
      else None
  | _ =>
      match child s with
      | HomeMounted h => fireHome e (app s) h
      | RecipesMounted r => fireRecipes e (app s) r
      end
  end.

Fixpoint run (es : list Event) (s : State) : option State :=
  match es with
  | [] => Some s
  | e :: rest =>
      match fire e s with
      | Some s' => run rest s'
      | None => None
      end
  end.

(** The states that a session can be in. *)
Definition reachable (s : State) : Prop := exists es, run es initial = Some s.

(** The ingredient list that the home screen shows, when it is shown. *)
Definition shownIngredients (s : State) : option (list string) :=
  match child s with
  | HomeMounted h => Some (HomePage.ingredients h)
  | RecipesMounted _ => None
  end.

End Ui.

(* ================================================================== *)
(** * Predicates for the statements                                    *)
(* ================================================================== *)

(** A string that does not begin with white space. *)
Definition startsClean (s : string) : Prop :=
  match s with
  | EmptyString => True
  | String c _ => Js.isWhiteSpace c = false
  end.

(** The store as the two [add] paths keep it: entries normalized, no entry
    twice. *)
Definition storeOk (store : list string) : Prop :=
  Forall HomePage.normalized store /\ NoDup store.

(** An event other than the arrival of recognized names. *)
Definition notRecognition (e : Ui.Event) : Prop :=
  match e with
  | Ui.RecognizeOk _ => False
  | _ => True
  end.

Definition homeStoreOk (s : Ui.State) : Prop :=
  match Ui.child s with
  | Ui.HomeMounted h => storeOk (HomePage.ingredients h)
  | Ui.RecipesMounted _ => True
  end.

(** [s] ends with [suffix]. *)
Fixpoint endsWith (suffix s : string) : bool :=
  (s =? suffix)
  || match s with
     | EmptyString => false
     | String _ s' => endsWith suffix s'
     end.

(** The [id] of a stored recipe. *)
Definition idOf (recipe : Json.value) : option Json.value :=
  match recipe with
  | Json.JObject props => Json.getProperty "id" props
  | _ => None
  end.

(** The events of the home screen that can come between the click on
    "Find Ingredients from Photo" and the answer of the service. *)
Definition duringRecognition (e : Ui.Event) : bool :=
  match e with
  | Ui.TypeInput _ | Ui.SubmitAdd | Ui.ClickPopular _ | Ui.ClickRemove _
  | Ui.ClickDietary _ | Ui.ChooseImage _ _ | Ui.ClickMinus | Ui.ClickPlus
  | Ui.ChooseCuisine _ => true
  | _ => false
  end.

(** What the recipes screen keeps through a session, before and after
    the filter effect has run: the list shown is a part of the fetched
    list, in its order, and holds no recipe of more than 120 minutes; the
    selected difficulties are among the three buttons, each once; the bound
    is a position of the slider; and while the request is under way there
    is no error, no recipe and nothing listed. *)
Definition recipesScreenOk (r : RecipesPage.State) : Prop :=
  Subsequence (RecipesPage.filteredRecipes r) (RecipesPage.recipes r)
  /\ (forall recipe, In recipe (RecipesPage.filteredRecipes r) ->
                     (Recipe.cookingTime recipe <= 120)%Z)
  /\ NoDup (RecipesPage.difficultyFilter r)
  /\ incl (RecipesPage.difficultyFilter r) ["Easy"; "Medium"; "Hard"]
  /\ (10 <= RecipesPage.maxTimeFilter r <= 120)%Z
  /\ (RecipesPage.maxTimeFilter r mod 5 = 0)%Z
  /\ (RecipesPage.isLoading r = true ->
      RecipesPage.error r = None /\ RecipesPage.recipes r = []
      /\ RecipesPage.filteredRecipes r = []).

(** What a query that reached the recipes screen is like. *)
Definition queryOk (q : App.SearchParams) : Prop :=
  App.ingredients q <> []
  /\ (1 <= App.servings q)%Z
  /\ In (App.cuisine q) cuisines
  /\ NoDup (App.dietary q)
  /\ incl (App.dietary q) Ui.dietaryKeys.

(** What a session keeps about the query: the home screen's counter and
    cuisine are fit to be submitted, and a query on the recipes screen is
    as [queryOk] says. *)
Definition queryInv (s : Ui.State) : Prop :=
  match Ui.child s with
  | Ui.HomeMounted h => (1 <= HomePage.servings h)%Z /\ In (HomePage.cuisine h) cuisines
  | Ui.RecipesMounted _ => True
  end
  /\ (App.page (Ui.app s) = App.recipes -> queryOk (App.searchParams (Ui.app s))).

(** An event other than the click on "Back to Ingredients". *)
Definition notBack (e : Ui.Event) : bool :=
  match e with
  | Ui.ClickBack => false
  | _ => true
  end.

(** Exactly one of the flags is set. *)
Definition exactlyOne (flags : list bool) : Prop :=
  List.length (List.filter (fun b => b) flags) = 1%nat.

(* ================================================================== *)
(** * Sessions and data for the examples                               *)
(* ================================================================== *)

(** A recipe to click on. *)
Definition soup : Recipe.t :=
  Recipe.mk 0 "Soup" "" ["rice"] 20 "Easy" [] 4 None None None None.

(** The home screen after "Rice" was typed and added. *)
Definition riceEntered : Ui.State :=
  Ui.mkState App.initial
    (Ui.HomeMounted (HomePage.setInputValue ""
                       (HomePage.setIngredients ["rice"] HomePage.initial))).

(** The recipes screen that "Find Recipes!" leads to from there. *)
Definition riceSubmitted : Ui.State :=
  Ui.mkState (App.handleFindRecipes ["rice"] [] 2 "Any" App.initial)
    (Ui.RecipesMounted RecipesPage.initial).

(** JSON texts are written down with apostrophes where they have double
    quotes. *)
Fixpoint jsonText (s : string) : string :=
  match s with
  | EmptyString => EmptyString
  | String c s' => String (if (c =? "'")%char then Js.doubleQuote else c) (jsonText s')
  end.

(** A response of the generation service with two recipes. *)
Definition twoRecipesText : string :=
  jsonText "[{'title':'Soup','cookingTime':20},{'title':'Stew'}]".

(** The body of a structured error. *)
Definition modelUnavailable : string := jsonText "{'error':'model unavailable'}".

Definition twoRecipesParsed : list Json.value :=
  [Json.JObject [("title", Json.JString "Soup"); ("cookingTime", Json.JNumber 20 0)];
   Json.JObject [("title", Json.JString "Stew")]].

Definition twoRecipes : RecipeClient.Response :=
  RecipeClient.mkResponse 200 (Some twoRecipesText).

(** The cells of [RecipesPage] while the request is under way. *)
Definition loading : RecipeClient.Cells := RecipeClient.mkCells [] true None.

(** A session on the home screen: "Chicken" is typed and added, a photo is
    chosen and sent, and the recognition service answers with two names. *)
Definition recognizedChicken : list Ui.Event :=
  [Ui.TypeInput "Chicken"; Ui.SubmitAdd; Ui.ChooseImage "photo.jpg" "blob:photo";
   Ui.ClickRecognize; Ui.RecognizeOk ["Chicken"; " rice"]].

(** A session: type "Rice", add it, search, receive one recipe, and the
    filter effect lists it. *)
Definition searchedForRice : list Ui.Event :=
  [Ui.TypeInput "Rice"; Ui.SubmitAdd; Ui.ClickFind; Ui.FetchLoaded [soup];
   Ui.FilterEffect].

(** The recipes screen at the end of that session, with the modal of the
    one recipe opened. *)
Definition soupOpened : Ui.State :=
  Ui.mkState (App.setSelectedRecipe (Some soup)
                (App.handleFindRecipes ["rice"] [] 2 "Any" App.initial))
    (Ui.RecipesMounted
       (RecipesPage.runFilterEffect (RecipesPage.fetchLoaded [soup] RecipesPage.initial))).

(** An answer of the recognition service with two names. *)
Definition twoNames : RecipeClient.Response :=
  RecipeClient.mkResponse 200 (Some (jsonText "['Chicken','rice']")).

(** An answer of either service that refuses the request. *)
Definition refused : RecipeClient.Response :=
  RecipeClient.mkResponse 500 (Some modelUnavailable).

(** The home screen with "rice" stored and a photo chosen. *)
Definition riceWithPhoto : Ui.State :=
  Ui.mkState App.initial
    (Ui.HomeMounted
       (HomePage.handleImageChange "photo.jpg" "blob:photo"
          (HomePage.setIngredients ["rice"] HomePage.initial))).

(** The recipes screen after the recipe arrived and was listed, the
    slider was moved to 60 and the recipe's modal was opened. *)
Definition soupOpenedAtSixty : Ui.State :=
  Ui.mkState (App.setSelectedRecipe (Some soup)
                (App.handleFindRecipes ["rice"] [] 2 "Any" App.initial))
    (Ui.RecipesMounted
       (RecipesPage.runFilterEffect
          (RecipesPage.setMaxTimeFilter 60
             (RecipesPage.runFilterEffect
                (RecipesPage.fetchLoaded [soup] RecipesPage.initial))))).

(** The recipes screen at the end of [searchedForRice], no modal open. *)
Definition soupListed : Ui.State :=
  Ui.mkState (App.handleFindRecipes ["rice"] [] 2 "Any" App.initial)
    (Ui.RecipesMounted
       (RecipesPage.runFilterEffect (RecipesPage.fetchLoaded [soup] RecipesPage.initial))).

(* ================================================================== *)
(** * Properties: JSON.parse                                           *)
(* ================================================================== *)

Section Fuel.

Import Json.

Lemma parseValue_S (f : nat) (ts : list token) : parseValue (S f) ts =
        match ts with
        | TNull :: r => Some (JNull, r)
        | TTrue :: r => Some (JBool true, r)
        | TFalse :: r => Some (JBool false, r)
        | TNumber m e :: r => Some (JNumber m e, r)
        | TString s :: r => Some (JString s, r)
        | TLBracket :: TRBracket :: r => Some (JArray [], r)
        | TLBracket :: r =>
            match parseValue f r with
            | Some (v, r1) => parseElements f [v] r1
            | None => None
            end
        | TLBrace :: TRBrace :: r => Some (JObject [], r)
        | TLBrace :: TString k :: TColon :: r =>
            match parseValue f r with
            | Some (v, r1) => parseMembers f [(k, v)] r1
            | None => None
            end
        | _ => None
        end.
Proof. reflexivity. Qed.

Lemma parseElements_S (f : nat) (acc : list value) (ts : list token) : parseElements (S f) acc ts =
        match ts with
        | TRBracket :: r => Some (JArray acc, r)
        | TComma :: r =>
            match parseValue f r with
            | Some (v, r1) => parseElements f (acc ++ [v])%list r1
            | None => None
            end
        | _ => None
        end.
Proof. reflexivity. Qed.

Lemma parseMembers_S (f : nat) (acc : list (string * value)) (ts : list token) : parseMembers (S f) acc ts =
        match ts with
        | TRBrace :: r => Some (JObject acc, r)
        | TComma :: TString k :: TColon :: r =>
            match parseValue f r with
            | Some (v, r1) => parseMembers f (defineProperty k v acc) r1
            | None => None
            end
        | _ => None
        end.
Proof. reflexivity. Qed.

Ltac split_parse H :=
  repeat match type of H with
    | context [match ?x with _ => _ end] => destruct x eqn:?; try discriminate H
    end;
  try match type of H with Some _ = Some _ => inversion H; subst; clear H end.

Ltac use_bounds IHv IHe IHm :=
  repeat match goal with
    | E : parseValue _ _ = Some _ |- _ => apply IHv in E; destruct E as [? ?]
    | E : parseElements _ _ _ = Some _ |- _ => apply IHe in E; destruct E as [? ?]
    | E : parseMembers _ _ _ = Some _ |- _ => apply IHm in E; destruct E as [? ?]
    end.

Ltac refuel :=
  repeat first
    [ match goal with
      | Hx : forall g, _ -> parseValue g ?ts = _ |- context [parseValue ?g' ?ts] =>
          rewrite (Hx g') by (cbn [List.length] in *; lia)
      | Hx : forall g, _ -> parseElements g ?a ?ts = _ |- context [parseElements ?g' ?a ?ts] =>
          rewrite (Hx g') by (cbn [List.length] in *; lia)
      | Hx : forall g, _ -> parseMembers g ?a ?ts = _ |- context [parseMembers ?g' ?a ?ts] =>
          rewrite (Hx g') by (cbn [List.length] in *; lia)
      end
    | progress cbv beta iota ].

(** Fuel beyond the number of tokens consumed is never needed. *)
Lemma fuel_enough (f : nat) :
  fuelBounded parseValue f
  /\ (forall acc, fuelBounded (fun f => parseElements f acc) f)
  /\ (forall acc, fuelBounded (fun f => parseMembers f acc) f).
Proof.
  unfold fuelBounded.
  induction f as [|f [IHv [IHe IHm]]].
  - repeat split; intros; discriminate.
  - split; [|split]; [|intros acc|intros acc]; intros ts v r H.
    + rewrite parseValue_S in H; split_parse H; use_bounds IHv IHe IHm;
        (split; [cbn [List.length] in *; lia|]);
        intros g Hg; (destruct g as [|g]; [cbn [List.length] in *; lia|]); rewrite parseValue_S;
        refuel; reflexivity.
    + rewrite parseElements_S in H; split_parse H; use_bounds IHv IHe IHm;
        (split; [cbn [List.length] in *; lia|]);
        intros g Hg; (destruct g as [|g]; [cbn [List.length] in *; lia|]); rewrite parseElements_S;
        refuel; reflexivity.
    + rewrite parseMembers_S in H; split_parse H; use_bounds IHv IHe IHm;
        (split; [cbn [List.length] in *; lia|]);
        intros g Hg; (destruct g as [|g]; [cbn [List.length] in *; lia|]); rewrite parseMembers_S;
        refuel; reflexivity.
Qed.

(** The fuel that [parseTokens] hands out is enough: whatever any amount
    of fuel can parse, [parseTokens] parses. *)
Lemma parseTokens_complete (f : nat) (ts : list token) (v : value) :
  parseValue f ts = Some (v, []) -> parseTokens ts = Some v.
Proof.
  intros H. destruct (fuel_enough f) as [Hv _]. apply Hv in H as [_ H].
  unfold parseTokens. rewrite (H (S (List.length ts))) by (cbn [List.length]; lia). reflexivity.
Qed.

End Fuel.

(* ================================================================== *)
(** * Properties: the filter engine                                    *)
(* ================================================================== *)

Section FilterEngine.

Import RecipesPage.

Lemma includes_In (arr : list string) (x : string) :
  Js.includes arr x = true <-> In x arr.
Proof.
  unfold Js.includes. rewrite existsb_exists. split.
  - intros [y [Hy Heq]]. apply String.eqb_eq in Heq. now subst.
  - intros H. exists x. split; [assumption | apply String.eqb_refl].
Qed.

Lemma filter_filter {A} (p q : A -> bool) (l : list A) :
  List.filter q (List.filter p l) = List.filter (fun a => p a && q a) l.
Proof.
  induction l as [|a l IH]; simpl; [reflexivity|].
  destruct (p a); simpl; [destruct (q a)|]; now rewrite IH.
Qed.

Lemma filterEffect_one_pass (R : list Recipe.t) (D : list string) (T : Z) :
  filterEffect R D T = List.filter (keeps D T) R.
Proof.
  unfold filterEffect, keeps. destruct D as [|d D]; simpl.
  - reflexivity.
  - apply filter_filter.
Qed.

(** C1. For every fetched list [R], difficulty set [D] and bound [T], the
    output of the filter engine is exactly the recipes of [R] that pass
    "[D] is empty or the difficulty is in [D]" and "cookingTime <= T":
    it is [R] filtered by that one criterion, so a recipe is in the
    output iff it is in [R] and passes both tests. *)
Theorem filter_engine_exact (R : list Recipe.t) (D : list string) (T : Z) :
  filterEffect R D T = List.filter (keeps D T) R
  /\ forall r, In r (filterEffect R D T)
               <-> In r R
                   /\ (D = [] \/ In (Recipe.difficulty r) D)
                   /\ (Recipe.cookingTime r <= T)%Z.
Proof.
  split; [apply filterEffect_one_pass|].
  intros r. rewrite filterEffect_one_pass, filter_In. unfold keeps.
  rewrite andb_true_iff, orb_true_iff, includes_In, Z.leb_le.
  assert (HD : Js.isEmpty D = true <-> D = []).
  { destruct D; simpl; split; congruence. }
  rewrite HD. tauto.
Qed.

Lemma filter_Subsequence {A} (p : A -> bool) (l : list A) :
  Subsequence (List.filter p l) l.
Proof.
  induction l as [|a l IH]; simpl.
  - constructor.
  - destruct (p a); now constructor.
Qed.

(** C10. The output of the filter engine keeps the order of the fetched
    list: it is the fetched list with some recipes left out. *)
Theorem filter_engine_keeps_order (R : list Recipe.t) (D : list string) (T : Z) :
  Subsequence (filterEffect R D T) R.
Proof.
  rewrite filterEffect_one_pass. apply filter_Subsequence.
Qed.

End FilterEngine.

(* ================================================================== *)
(** * Properties: the servings counter                                 *)
(* ================================================================== *)

Section Servings.

Import HomePage.

Lemma press_floor (b : ServingsButton) (s : Z) : (1 <= s -> 1 <= press b s)%Z.
Proof. destruct b; unfold press, decrement, increment; lia. Qed.

Lemma presses_floor (bs : list ServingsButton) :
  forall s, (1 <= s -> 1 <= presses bs s)%Z.
Proof.
  unfold presses. induction bs as [|b bs IH]; simpl; intros s Hs.
  - assumption.
  - apply IH. now apply press_floor.
Qed.

(** C9. From any value [s >= 1] the decrement gives [max(1, s - 1)],
    which is at least 1, and no run of presses of the two buttons takes
    the counter below 1; from the initial 2 one decrement gives 1 and a
    second one leaves 1. *)
Theorem servings_never_below_one (s : Z) (bs : list ServingsButton) :
  (1 <= s)%Z ->
  decrement s = Z.max 1 (s - 1)
  /\ (1 <= decrement s)%Z
  /\ (1 <= presses bs s)%Z
  /\ decrement (servings initial) = 1%Z
  /\ decrement (decrement (servings initial)) = 1%Z.
Proof.
  intros Hs. repeat split.
  - unfold decrement. lia.
  - now apply presses_floor.
Qed.

Lemma servings_never_below_one_witness :
  (1 <= 2)%Z
  /\ decrement 2 = Z.max 1 (2 - 1)
  /\ (1 <= decrement 2)%Z
  /\ (1 <= presses [Minus; Minus; Plus; Minus; Minus] 2)%Z
  /\ decrement (servings initial) = 1%Z
  /\ decrement (decrement (servings initial)) = 1%Z.
Proof.
  split; [lia|].
  apply (servings_never_below_one 2 [Minus; Minus; Plus; Minus; Minus]). lia.
Defined.

End Servings.

(* ================================================================== *)
(** * Properties: the ingredient store                                 *)
(* ================================================================== *)

Section IngredientStore.

Import HomePage.

Lemma lowerChar_idempotent (c : ascii) : Js.lowerChar (Js.lowerChar c) = Js.lowerChar c.
Proof. destruct c as [[] [] [] [] [] [] [] []]; reflexivity. Qed.

Lemma lowerChar_whitespace (c : ascii) :
  Js.isWhiteSpace (Js.lowerChar c) = Js.isWhiteSpace c.
Proof. destruct c as [[] [] [] [] [] [] [] []]; reflexivity. Qed.

Lemma toLowerCase_idempotent (s : string) :
  Js.toLowerCase (Js.toLowerCase s) = Js.toLowerCase s.
Proof.
  induction s as [|c s IH]; simpl; [reflexivity|].
  now rewrite lowerChar_idempotent, IH.
Qed.

Lemma trimStart_toLowerCase (s : string) :
  Js.trimStart (Js.toLowerCase s) = Js.toLowerCase (Js.trimStart s).
Proof.
  induction s as [|c s IH]; simpl; [reflexivity|].
  rewrite lowerChar_whitespace. now destruct (Js.isWhiteSpace c).
Qed.

Lemma trimEnd_toLowerCase (s : string) :
  Js.trimEnd (Js.toLowerCase s) = Js.toLowerCase (Js.trimEnd s).
Proof.
  induction s as [|c s IH]; simpl; [reflexivity|].
  rewrite IH, lowerChar_whitespace.
  destruct (Js.trimEnd s); simpl; [now destruct (Js.isWhiteSpace c) | reflexivity].
Qed.

Lemma trimEnd_idempotent (s : string) : Js.trimEnd (Js.trimEnd s) = Js.trimEnd s.
Proof.
  induction s as [|c s IH]; simpl; [reflexivity|].
  destruct (Js.trimEnd s) as [|d t] eqn:E.
  - destruct (Js.isWhiteSpace c) eqn:W; simpl; [reflexivity | now rewrite W].
  - change (Js.trimEnd (String c (String d t))) with
      (match Js.trimEnd (String d t) with
       | EmptyString => if Js.isWhiteSpace c then EmptyString else String c EmptyString
       | u => String c u
       end).
    now rewrite IH.
Qed.

Lemma trimStart_startsClean (s : string) : startsClean (Js.trimStart s).
Proof.
  induction s as [|c s IH]; simpl; [exact I|].
  destruct (Js.isWhiteSpace c) eqn:W; [exact IH | exact W].
Qed.

Lemma trimEnd_startsClean (s : string) : startsClean s -> startsClean (Js.trimEnd s).
Proof.
  destruct s as [|c s]; simpl; [trivial|]. intros W.
  destruct (Js.trimEnd s); [now rewrite W | exact W].
Qed.

Lemma trimStart_of_clean (s : string) : startsClean s -> Js.trimStart s = s.
Proof. destruct s as [|c s]; simpl; [trivial|]. now intros ->. Qed.

Lemma trim_idempotent (s : string) : Js.trim (Js.trim s) = Js.trim s.
Proof.
  unfold Js.trim.
  rewrite (trimStart_of_clean (Js.trimEnd (Js.trimStart s))).
  - apply trimEnd_idempotent.
  - apply trimEnd_startsClean, trimStart_startsClean.
Qed.

(** What [handleAddIngredient] stores is normalized, whatever was typed. *)
Lemma formatted_normalized (raw : string) : normalized (Js.toLowerCase (Js.trim raw)).
Proof.
  unfold normalized, Js.trim.
  rewrite trimStart_toLowerCase, trimEnd_toLowerCase.
  fold (Js.trim raw). fold (Js.trim (Js.trim raw)).
  now rewrite trim_idempotent, toLowerCase_idempotent.
Qed.

(** What [addPopularIngredient] stores is normalized too: none of the
    twelve constants has white space at either end. *)
Lemma popular_normalized (i : nat) (ingredient : string) :
  nth_error popularIngredients i = Some ingredient ->
  normalized (Js.toLowerCase ingredient).
Proof.
  unfold normalized, popularIngredients. intros H.
  do 12 (destruct i as [|i]; [inversion H; reflexivity|]).
  destruct i; discriminate H.
Qed.

Lemma normalized_lower (x : string) : normalized x -> Js.toLowerCase x = x.
Proof.
  unfold normalized. intros H. rewrite <- H at 1.
  now rewrite toLowerCase_idempotent.
Qed.

Lemma storeOk_noCaseDuplicates (store : list string) :
  storeOk store -> noCaseDuplicates store.
Proof.
  intros [Hn Hd] i j a b Ha Hb Heq. unfold Js.equalIgnoringCase in Heq.
  rewrite Forall_forall in Hn.
  rewrite (normalized_lower a), (normalized_lower b) in Heq
    by (apply Hn; eapply nth_error_In; eassumption).
  subst b. eapply NoDup_nth_error; [exact Hd | | congruence].
  apply nth_error_Some. congruence.
Qed.

Lemma storeOk_append (store : list string) (x : string) :
  storeOk store -> normalized x -> Js.includes store x = false ->
  storeOk (store ++ [x]).
Proof.
  intros [Hn Hd] Hx Hin. split.
  - apply Forall_app. split; [assumption | now constructor].
  - apply NoDup_app.
    + assumption.
    + repeat constructor. intros [].
    + intros y Hy [<-|[]]. apply includes_In in Hy. congruence.
Qed.

Lemma storeOk_filter (p : string -> bool) (store : list string) :
  storeOk store -> storeOk (List.filter p store).
Proof.
  intros [Hn Hd]. split.
  - rewrite Forall_forall in *. intros x Hx. apply filter_In in Hx. now apply Hn.
  - now apply NoDup_filter.
Qed.

Lemma handleAddIngredient_storeOk (s : State) :
  storeOk (ingredients s) -> storeOk (ingredients (handleAddIngredient s)).
Proof.
  intros H. unfold handleAddIngredient.
  destruct (negb (Js.toLowerCase (Js.trim (inputValue s)) =? "")); simpl; [|assumption].
  destruct (Js.includes (ingredients s) (Js.toLowerCase (Js.trim (inputValue s)))) eqn:E;
    simpl; [assumption|].
  apply storeOk_append; [assumption | apply formatted_normalized | assumption].
Qed.

Lemma addPopularIngredient_storeOk (i : nat) (ingredient : string) (s : State) :
  nth_error popularIngredients i = Some ingredient ->
  storeOk (ingredients s) -> storeOk (ingredients (addPopularIngredient ingredient s)).
Proof.
  intros Hi H. unfold addPopularIngredient.
  destruct (Js.includes (ingredients s) (Js.toLowerCase ingredient)) eqn:E;
    simpl; [assumption|].
  apply storeOk_append; [assumption | eapply popular_normalized; eassumption | assumption].
Qed.

Lemma storeOk_nil : storeOk [].
Proof. split; constructor. Qed.

Lemma fire_homeStoreOk (e : Ui.Event) (s s' : Ui.State) :
  notRecognition e -> Ui.fire e s = Some s' -> homeStoreOk s -> homeStoreOk s'.
Proof.
  destruct s as [a c]. unfold Ui.fire, homeStoreOk. simpl. intros He H Hinv.
  destruct e; try contradiction; destruct c as [h|r]; simpl in H;
    repeat match type of H with
      | context [match ?x with _ => _ end] => destruct x eqn:?; simpl in H
      end;
    try discriminate; inversion H; subst; clear H; simpl;
    auto using storeOk_nil, handleAddIngredient_storeOk, storeOk_filter.
  - eapply addPopularIngredient_storeOk; eassumption.
  - unfold handleDietaryChange.
    repeat match goal with |- context [if ?x then _ else _] => destruct x end;
      simpl; assumption.
  - unfold handleRecognizeIngredients. rewrite Heqo. simpl. assumption.
  - destruct (App.page a); simpl; auto using storeOk_nil.
  - destruct (App.page a); simpl; auto.
  - destruct (App.page a); simpl; auto using storeOk_nil.
Qed.

(** The sibling paths do what the claim says: as long as no recognized
    names arrive, the store shown on the home screen holds normalized
    entries only and no two entries equal up to case. *)
Lemma add_paths_keep_store (es : list Ui.Event) (s : Ui.State) (h : State) :
  Forall notRecognition es ->
  Ui.run es Ui.initial = Some s ->
  Ui.child s = Ui.HomeMounted h ->
  Forall normalized (ingredients h) /\ noCaseDuplicates (ingredients h).
Proof.
  intros Hes Hrun Hc.
  assert (G : forall es s0 s, Forall notRecognition es -> homeStoreOk s0 ->
                              Ui.run es s0 = Some s -> homeStoreOk s).
  { clear. induction es as [|e es IH]; simpl; intros s0 s Hes H0 Hrun.
    - inversion Hrun. now subst.
    - inversion Hes; subst.
      destruct (Ui.fire e s0) as [s1|] eqn:Hf; [|discriminate].
      eapply IH; [eassumption | | exact Hrun].
      eapply fire_homeStoreOk; eassumption. }
  specialize (G es Ui.initial s Hes storeOk_nil Hrun).
  unfold homeStoreOk in G. rewrite Hc in G.
  split; [apply G | now apply storeOk_noCaseDuplicates].
Qed.

(** C2 at the failing input.  With "chicken" in the store, the recognition
    service answers ["Chicken", " rice"]: the merge of line 165 stores both
    names as they came, so the store then holds "chicken" and "Chicken",
    equal under case-insensitive comparison, and two entries that are not
    normalized. *)
Theorem recognition_merge_not_normalized :
  option_map Ui.shownIngredients (Ui.run recognizedChicken Ui.initial)
  = Some (Some ["chicken"; "Chicken"; " rice"])
  /\ mergeRecognized ["chicken"] ["Chicken"; " rice"] = ["chicken"; "Chicken"; " rice"]
  /\ ~ noCaseDuplicates (mergeRecognized ["chicken"] ["Chicken"; " rice"])
  /\ ~ normalized "Chicken"
  /\ ~ normalized " rice".
Proof.
  split; [reflexivity|]. split; [reflexivity|]. split; [|split].
  - intros H. specialize (H 0%nat 1%nat "chicken" "Chicken" eq_refl eq_refl eq_refl).
    discriminate H.
  - unfold normalized. vm_compute. discriminate.
  - unfold normalized. vm_compute. discriminate.
Qed.

End IngredientStore.

(* ================================================================== *)
(** * Properties: the recipe client                                    *)
(* ================================================================== *)

Section ClientErrors.

Import Json RecipeClient.

Variable P : Platform.

(** Whatever the body says, the [try] block ends by throwing, and it has
    read the body by then. *)
Lemma tryBlock_throws (r : Response) (t : string) :
  body r = Some t ->
  exists e, tryBlock P r false = (inr e, true).
Proof.
  intros Hb.
  cbv [tryBlock json consumeBody JSON_parse serverError errorProperty bind ret throw].
  rewrite Hb.
  destruct (Json.parse t) as [errorData|]; [destruct errorData|]; eauto.
Qed.

(** A response that is not ok and has a body: the [catch] clause asks for
    the text of a body that [response.json()] has read already, and what
    reaches the page is the run-time's complaint about that. *)
Lemma nonOk_displays_bodyUsed (r : Response) (t : string) (before : Cells) :
  ok r = false -> body r = Some t ->
  fetchRecipes P r before
  = mkCells (recipes before) false (Some (bodyUsedMessage P)).
Proof.
  intros Hok Hb. destruct (tryBlock_throws r t Hb) as [e He].
  unfold fetchRecipes, fetchBody. rewrite Hok.
  cbv [negb bind nonOkBranch tryCatch]. rewrite He.
  cbv [catchClause bind text consumeBody]. rewrite Hb. reflexivity.
Qed.

(** Only a response without a body gets the message of line 400. *)
Lemma nonOk_without_body (r : Response) (before : Cells) :
  ok r = false -> body r = None ->
  fetchRecipes P r before
  = mkCells (recipes before) false
      (Some ("Server returned status " ++ Js.numberToString (status r) ++ ": ")).
Proof.
  intros Hok Hb. unfold fetchRecipes, fetchBody. rewrite Hok.
  cbv [negb bind nonOkBranch tryCatch tryBlock json consumeBody JSON_parse
       catchClause text]. rewrite Hb. reflexivity.
Qed.

(** C3 at the failing input.  Status 500 with the body
    [{"error":"model unavailable"}] (the text [modelUnavailable]): line 398 does throw an Error with the
    message "model unavailable", but from inside the [try] block; the
    [catch] clause of line 399 takes it, fails itself on reading the body a
    second time, and the page shows that failure's message instead. *)
Theorem structured_error_is_replaced (before : Cells) :
  let r := mkResponse 500 (Some modelUnavailable) in
  ok r = false
  /\ tryBlock P r false = (inr (Error "model unavailable"), true)
  /\ fetchRecipes P r before
     = mkCells (recipes before) false (Some (bodyUsedMessage P)).
Proof.
  split; [reflexivity|]. split; [reflexivity|].
  now apply nonOk_displays_bodyUsed with (t := modelUnavailable).
Qed.

(** C4 at the failing input.  Status 500 with the body [oops]:
    [response.json()] reads the body and fails to parse it; the [catch]
    clause then asks for the text of the body that was just read, which the
    run-time refuses, so the message with the status and the text is never
    built and the page shows the run-time's message. *)
Theorem unparseable_error_is_replaced (before : Cells) :
  let r := mkResponse 500 (Some "oops") in
  ok r = false
  /\ Json.parse "oops" = None
  /\ fst (catchClause P r (Error (syntaxErrorMessage P "oops")) false)
     = inr (Error "Server returned status 500: oops")
  /\ fetchRecipes P r before
     = mkCells (recipes before) false (Some (bodyUsedMessage P)).
Proof.
  split; [reflexivity|]. split; [reflexivity|]. split; [reflexivity|].
  now apply nonOk_displays_bodyUsed with (t := "oops").
Qed.

End ClientErrors.

Section ClientSuccess.

Import Json RecipeClient.

Variable P : Platform.

(** A response that is ok and whose cleaned text parses to an array. *)
Lemma fetch_ok_parsed (r : Response) (before : Cells) (l : list value) :
  ok r = true ->
  Json.parse (cleanedText (bodyText r)) = Some (JArray l) ->
  fetchRecipes P r before = mkCells (recipesWithIds l) false None.
Proof.
  intros Hok Hp. unfold fetchRecipes, fetchBody. rewrite Hok.
  cbv [negb bind ret text consumeBody JSON_parse].
  unfold bodyText in Hp. destruct (body r); rewrite Hp; reflexivity.
Qed.

Lemma getProperty_define_same (k : string) (v : value) (props : list (string * value)) :
  getProperty k (defineProperty k v props) = Some v.
Proof.
  induction props as [|[k0 v0] props IH]; simpl.
  - now rewrite String.eqb_refl.
  - destruct (k0 =? k) eqn:E; simpl.
    + now rewrite String.eqb_refl.
    + now rewrite E.
Qed.

Lemma getProperty_define_other (k k' : string) (v : value) (props : list (string * value)) :
  k' <> k ->
  getProperty k' (defineProperty k v props) = getProperty k' props.
Proof.
  intros Hk. apply String.eqb_neq in Hk. rewrite String.eqb_sym in Hk.
  induction props as [|[k0 v0] props IH]; simpl.
  - now rewrite Hk.
  - destruct (k0 =? k) eqn:E; simpl.
    + apply String.eqb_eq in E. subst k0. now rewrite Hk.
    + now rewrite IH.
Qed.

Lemma mapWithId_length (l : list value) :
  forall index, List.length (mapWithId index l) = List.length l.
Proof. induction l as [|v l IH]; simpl; intros; [reflexivity | now rewrite IH]. Qed.

Lemma mapWithId_nth (l : list value) :
  forall index i recipe,
    nth_error l i = Some recipe ->
    nth_error (mapWithId index l) i
    = Some (JObject (defineProperty "id" (JNumber (Z.of_nat (index + i)) 0)
                                    (spread recipe))).
Proof.
  induction l as [|v l IH]; intros index [|i] recipe H; simpl in *; try discriminate.
  - inversion H. subst. now rewrite Nat.add_0_r.
  - rewrite (IH (S index) i recipe H). now rewrite Nat.add_succ_r.
Qed.

Lemma defineProperty_absent (k : string) (v : value) (props : list (string * value)) :
  getProperty k props = None -> defineProperty k v props = (props ++ [(k, v)])%list.
Proof.
  induction props as [|[k0 v0] props IH]; simpl; [reflexivity|].
  destruct (k0 =? k); [discriminate|]. intros H. now rewrite (IH H).
Qed.

(** C5. A response that is ok and whose cleaned text parses to an array
    of [N] values ends with the page holding [N] recipes, no error and the
    loading flag off, and the recipe at position [i] is an object whose
    [id] is [i].  Where the [i]-th value of the response is an object, the
    stored recipe has, beside the [id], exactly the properties of that
    object with their values; and where that object brings no [id] along,
    the stored recipe is that object's properties, in their order,
    followed by the [id]. *)
Theorem ids_follow_response_order
        (r : Response) (before : Cells) (parsedRecipes : list value) :
  ok r = true ->
  Json.parse (cleanedText (bodyText r)) = Some (JArray parsedRecipes) ->
  let after := fetchRecipes P r before in
  error after = None
  /\ isLoading after = false
  /\ List.length (recipes after) = List.length parsedRecipes
  /\ (forall i recipe,
        nth_error parsedRecipes i = Some recipe ->
        exists props,
          nth_error (recipes after) i = Some (JObject props)
          /\ getProperty "id" props = Some (JNumber (Z.of_nat i) 0))
  /\ (forall i props0,
        nth_error parsedRecipes i = Some (JObject props0) ->
        exists props,
          nth_error (recipes after) i = Some (JObject props)
          /\ getProperty "id" props = Some (JNumber (Z.of_nat i) 0)
          /\ (forall k, k <> "id" -> getProperty k props = getProperty k props0)
          /\ (getProperty "id" props0 = None ->
              props = (props0 ++ [("id", JNumber (Z.of_nat i) 0)])%list)).
Proof.
  intros Hok Hp. cbv zeta. rewrite (fetch_ok_parsed r before parsedRecipes Hok Hp).
  simpl. split; [reflexivity|]. split; [reflexivity|].
  split; [apply mapWithId_length|]. split.
  - intros i recipe Hi. eexists. split.
    + unfold recipesWithIds. rewrite (mapWithId_nth _ 0 i recipe Hi). reflexivity.
    + apply getProperty_define_same.
  - intros i props0 Hi. eexists. split; [|split; [|split]].
    + unfold recipesWithIds. rewrite (mapWithId_nth _ 0 i _ Hi). reflexivity.
    + apply getProperty_define_same.
    + intros k Hk. now apply getProperty_define_other.
    + intros Hid. simpl. now apply defineProperty_absent.
Qed.

End ClientSuccess.

Lemma ids_follow_response_order_witness :
  RecipeClient.ok twoRecipes = true
  /\ Json.parse (RecipeClient.cleanedText (RecipeClient.bodyText twoRecipes))
     = Some (Json.JArray twoRecipesParsed)
  /\ RecipeClient.fetchRecipes chromium twoRecipes loading
     = RecipeClient.mkCells
         [Json.JObject [("title", Json.JString "Soup"); ("cookingTime", Json.JNumber 20 0);
                        ("id", Json.JNumber 0 0)];
          Json.JObject [("title", Json.JString "Stew"); ("id", Json.JNumber 1 0)]]
         false None
  /\ let after := RecipeClient.fetchRecipes chromium twoRecipes loading in
     RecipeClient.error after = None
     /\ RecipeClient.isLoading after = false
     /\ List.length (RecipeClient.recipes after) = List.length twoRecipesParsed
     /\ (forall i recipe,
           nth_error twoRecipesParsed i = Some recipe ->
           exists props,
             nth_error (RecipeClient.recipes after) i = Some (Json.JObject props)
             /\ Json.getProperty "id" props = Some (Json.JNumber (Z.of_nat i) 0))
     /\ (forall i props0,
           nth_error twoRecipesParsed i = Some (Json.JObject props0) ->
           exists props,
             nth_error (RecipeClient.recipes after) i = Some (Json.JObject props)
             /\ Json.getProperty "id" props = Some (Json.JNumber (Z.of_nat i) 0)
             /\ (forall k, k <> "id" ->
                           Json.getProperty k props = Json.getProperty k props0)
             /\ (Json.getProperty "id" props0 = None ->
                 props = (props0 ++ [("id", Json.JNumber (Z.of_nat i) 0)])%list)).
Proof.
  split; [reflexivity|]. split; [reflexivity|]. split; [reflexivity|].
  apply (ids_follow_response_order chromium twoRecipes loading twoRecipesParsed);
    reflexivity.
Defined.

Section Scanner.

Import Json.

Lemma run_cons (st : lstate) (c : ascii) (s : string) :
  run st (String c s)
  = match step st c with
    | None => None
    | Some (toks, st') =>
        match run st' s with
        | None => None
        | Some rest => Some (toks ++ rest)%list
        end
    end.
Proof. reflexivity. Qed.

Lemma jsonSpace_start (c : ascii) :
  isJsonSpace c = true -> start c = Some ([], LStart).
Proof. intros H. unfold start. now rewrite H. Qed.

Lemma jsonSpace_in_number (c : ascii) :
  isJsonSpace c = true ->
  digitOf c = None /\ (c =? ".")%char = false /\ isExpMark c = false.
Proof.
  destruct c as [[] [] [] [] [] [] [] []]; intros H; vm_compute in H;
    try discriminate H; repeat split.
Qed.

Lemma whiteSpace_not_json (c : ascii) :
  Js.isWhiteSpace c = true -> isJsonSpace c = false -> start c = None.
Proof.
  destruct c as [[] [] [] [] [] [] [] []]; intros H1 H2; vm_compute in H1, H2;
    try discriminate H1; try discriminate H2; reflexivity.
Qed.

Lemma jsonSpace_whiteSpace (c : ascii) :
  isJsonSpace c = true -> Js.isWhiteSpace c = true.
Proof.
  destruct c as [[] [] [] [] [] [] [] []]; intros H; vm_compute in H;
    try discriminate H; reflexivity.
Qed.

Lemma run_spaces (ws : string) :
  Js.allChars isJsonSpace ws = true -> run LStart ws = Some [].
Proof.
  induction ws as [|c ws IH]; intros H; [reflexivity|].
  simpl in H. apply andb_true_iff in H as [Hc Hws].
  rewrite run_cons. change (step LStart c) with (start c).
  now rewrite (jsonSpace_start c Hc), (IH Hws).
Qed.

(** White space where the text could have ended changes nothing. *)
Lemma finish_spaces (st : lstate) (ts : list token) (ws : string) :
  finish st = Some ts -> Js.allChars isJsonSpace ws = true -> run st ws = Some ts.
Proof.
  intros Hf Hws. destruct ws as [|c ws]; [exact Hf|].
  simpl in Hws. apply andb_true_iff in Hws as [Hc Hws].
  destruct (jsonSpace_in_number c Hc) as [Hd [Hp He]].
  rewrite run_cons.
  destruct st as [| | | | |nst n]; simpl in Hf; try discriminate Hf.
  - inversion Hf; subst. change (step LStart c) with (start c).
    now rewrite (jsonSpace_start c Hc), (run_spaces ws Hws).
  - destruct nst; try discriminate Hf; inversion Hf; subst;
      cbv [step stepNumber endNumber]; rewrite ?Hd, ?Hp, ?He, (jsonSpace_start c Hc);
      now rewrite (run_spaces ws Hws).
Qed.

Lemma append_cons (c : ascii) (s t : string) : String c s ++ t = String c (s ++ t).
Proof. reflexivity. Qed.

Lemma append_assoc (s t u : string) : (s ++ t) ++ u = s ++ (t ++ u).
Proof. induction s as [|c s IH]; simpl; [reflexivity | now rewrite IH]. Qed.

Lemma length_append (s t : string) :
  String.length (s ++ t) = (String.length s + String.length t)%nat.
Proof. induction s as [|c s IH]; simpl; [reflexivity | now rewrite IH]. Qed.

(** White space after a text that scans changes nothing. *)
Lemma run_append_spaces (ws : string) :
  Js.allChars isJsonSpace ws = true ->
  forall s st ts, run st s = Some ts -> run st (s ++ ws) = Some ts.
Proof.
  intros Hws. induction s as [|c s IH]; intros st ts H.
  - simpl in H. now apply finish_spaces.
  - rewrite append_cons, run_cons. rewrite run_cons in H.
    destruct (step st c) as [[toks st']|]; [|discriminate H].
    destruct (run st' s) as [rest|] eqn:E; [|discriminate H].
    now rewrite (IH st' rest E).
Qed.

(** The scanner stays within [wfState]. *)
Lemma start_wfState (c : ascii) (toks : list token) (st' : lstate) :
  start c = Some (toks, st') -> wfState st'.
Proof.
  unfold start. intros H.
  repeat match type of H with
    | context [if ?x then _ else _] => destruct x
    | context [match ?x with _ => _ end] => destruct x
    end;
    try discriminate H; inversion H; subst; simpl; auto.
Qed.

Lemma step_wfState (st : lstate) (c : ascii) (toks : list token) (st' : lstate) :
  wfState st -> step st c = Some (toks, st') -> wfState st'.
Proof.
  intros Hwf H. destruct st as [|rest t|acc|acc|acc k v|nst n].
  - eapply start_wfState; exact H.
  - simpl in H. destruct rest as [|x rest]; [discriminate H|].
    simpl in Hwf. apply andb_true_iff in Hwf as [_ Hwf].
    destruct (c =? x)%char; [|discriminate H].
    destruct rest; inversion H; subst; simpl; auto.
  - simpl in H.
    repeat match type of H with
      | context [if ?x then _ else _] => destruct x
      end; try discriminate H; inversion H; subst; simpl; auto.
  - simpl in H.
    repeat match type of H with
      | context [if ?x then _ else _] => destruct x
      end; try discriminate H; inversion H; subst; simpl; auto.
  - simpl in H. destruct (hexOf c); [|discriminate H].
    destruct k as [|[|k]]; [discriminate H| |];
      repeat match type of H with
        | context [if ?x then _ else _] => destruct x
        end; try discriminate H; inversion H; subst; simpl; auto.
  - cbv [step stepNumber endNumber] in H.
    destruct nst;
      repeat match type of H with
        | context [if ?x then _ else _] => destruct x
        | context [match digitOf c with _ => _ end] => destruct (digitOf c) as [[|?]|]
        | context [match start c with _ => _ end] =>
            let E := fresh "E" in
            destruct (start c) as [[? ?]|] eqn:E;
            [apply start_wfState in E|]
        end; try discriminate H; inversion H; subst; simpl; auto.
Qed.

(** No text that scans ends in a backquote. *)
Lemma step_backquote (st : lstate) :
  wfState st ->
  match step st "`" with
  | None => True
  | Some (_, st') => finish st' = None
  end.
Proof.
  intros Hwf. destruct st as [|rest t|acc|acc|acc k v|nst n]; try exact I.
  - destruct rest as [|x rest]; [exact I|]. cbv [step].
    destruct (Ascii.eqb_spec "`" x) as [<-|Hne]; [discriminate Hwf | exact I].
  - reflexivity.
  - destruct nst; exact I.
Qed.

Lemma run_backquote (s : string) :
  forall st, wfState st -> run st (s ++ "`") = None.
Proof.
  induction s as [|c s IH]; intros st Hwf.
  - simpl append. rewrite run_cons. pose proof (step_backquote st Hwf) as H.
    destruct (step st "`") as [[toks st']|]; [|reflexivity].
    simpl. now rewrite H.
  - rewrite append_cons, run_cons.
    destruct (step st c) as [[toks st']|] eqn:E; [|reflexivity].
    now rewrite (IH st' (step_wfState st c toks st' Hwf E)).
Qed.

Lemma lex_no_fence_at_end (x : string) : lex (x ++ "```") = None.
Proof.
  change "```" with ("``" ++ "`"). rewrite <- append_assoc.
  apply run_backquote. exact I.
Qed.

End Scanner.


Section Fences.

Import Json RecipeClient.

Variable P : Platform.

Lemma replaceClosingFence_cons (c : ascii) (s : string) :
  replaceClosingFence (String c s)
  = if String c s =? "```" then EmptyString else String c (replaceClosingFence s).
Proof. reflexivity. Qed.

Lemma replaceClosingFence_app (x : string) : replaceClosingFence (x ++ "```") = x.
Proof.
  induction x as [|c x IH]; [reflexivity|].
  rewrite append_cons, replaceClosingFence_cons.
  destruct (String.eqb_spec (String c (x ++ "```")) "```") as [E|_].
  - apply (f_equal String.length) in E. simpl in E. rewrite length_append in E.
    simpl in E. lia.
  - now rewrite IH.
Qed.

Lemma replaceClosingFence_cases (s : string) :
  replaceClosingFence s = s \/ exists x, s = x ++ "```".
Proof.
  induction s as [|c s IH]; [now left|].
  rewrite replaceClosingFence_cons.
  destruct (String.eqb_spec (String c s) "```") as [E|_].
  - right. now exists EmptyString.
  - destruct IH as [->|[x ->]]; [now left|]. right. now exists (String c x).
Qed.

(** A text that scans has no opening fence to lose... *)
Lemma replaceOpeningFence_scanned (B : string) (ts : list token) :
  lex B = Some ts -> replaceOpeningFence B = B.
Proof.
  intros H. unfold replaceOpeningFence. destruct B as [|c B]; [reflexivity|].
  cbn [stripPrefix].
  destruct (Ascii.eqb_spec "`" c) as [<-|_]; [discriminate H | reflexivity].
Qed.

(** ... and no closing fence either: cleaning leaves it as it is. *)
Lemma cleanedText_scanned (B : string) (ts : list token) :
  lex B = Some ts -> cleanedText B = B.
Proof.
  intros H. unfold cleanedText. rewrite (replaceOpeningFence_scanned B ts H).
  destruct (replaceClosingFence_cases B) as [E|[x E]]; [exact E|].
  subst B. rewrite lex_no_fence_at_end in H. discriminate H.
Qed.

Lemma trimStart_spaces (ws X : string) :
  Js.allChars Js.isWhiteSpace ws = true -> Js.trimStart (ws ++ X) = Js.trimStart X.
Proof.
  induction ws as [|c ws IH]; intros H; [reflexivity|].
  simpl in H. apply andb_true_iff in H as [Hc Hws].
  rewrite append_cons. cbn [Js.trimStart]. rewrite Hc. now apply IH.
Qed.

(** The greedy [\s*] stops inside a text that scans, at its first token,
    and what it took from the text was JSON white space. *)
Lemma trimStart_scanned (B : string) :
  forall ts Y,
    lex B = Some ts -> ts <> [] ->
    Js.trimStart (B ++ Y) = Js.trimStart B ++ Y
    /\ lex (Js.trimStart B) = Some ts.
Proof.
  induction B as [|c B IH]; intros ts Y H Hne.
  - inversion H. congruence.
  - rewrite append_cons. cbn [Js.trimStart].
    destruct (Js.isWhiteSpace c) eqn:W; [|now split].
    unfold lex in H. rewrite run_cons in H. change (step LStart c) with (start c) in H.
    destruct (isJsonSpace c) eqn:J.
    + rewrite (jsonSpace_start c J) in H.
      destruct (run LStart B) as [rest|] eqn:E; [|discriminate H].
      inversion H; subst. now apply IH.
    + rewrite (whiteSpace_not_json c W J) in H. discriminate H.
Qed.

Lemma parseTokens_nonempty (ts : list token) (v : value) :
  parseTokens ts = Some v -> ts <> [].
Proof. intros H ->. discriminate H. Qed.

(** Cleaning a fenced body leaves the body, without its leading white
    space and followed by the white space that stood before the closing
    fence. *)
Lemma cleanedText_fenced (ws1 B ws2 : string) (ts : list token) :
  Js.allChars Js.isWhiteSpace ws1 = true ->
  lex B = Some ts -> ts <> [] ->
  cleanedText (fenced ws1 B ws2) = Js.trimStart B ++ ws2.
Proof.
  intros H1 HB Hne. unfold cleanedText, fenced, replaceOpeningFence.
  change (stripPrefix "```json" ("```json" ++ ws1 ++ B ++ ws2 ++ "```"))
    with (Some (ws1 ++ B ++ ws2 ++ "```")).
  cbv beta iota. rewrite (trimStart_spaces ws1 _ H1).
  destruct (trimStart_scanned B ts (ws2 ++ "```") HB Hne) as [-> _].
  rewrite <- append_assoc. apply replaceClosingFence_app.
Qed.

Lemma parse_fenced (ws1 B ws2 : string) (v : value) :
  Json.parse B = Some v ->
  Js.allChars Js.isWhiteSpace ws1 = true ->
  Js.allChars isJsonSpace ws2 = true ->
  Json.parse (cleanedText (fenced ws1 B ws2)) = Some v
  /\ Json.parse (cleanedText B) = Some v.
Proof.
  intros Hp H1 H2. unfold Json.parse in Hp.
  destruct (lex B) as [ts|] eqn:HB; [|discriminate Hp].
  pose proof (parseTokens_nonempty ts v Hp) as Hne.
  split.
  - rewrite (cleanedText_fenced ws1 B ws2 ts H1 HB Hne). unfold Json.parse.
    destruct (trimStart_scanned B ts EmptyString HB Hne) as [_ Hl].
    unfold lex. rewrite (run_append_spaces ws2 H2 _ _ ts Hl). exact Hp.
  - rewrite (cleanedText_scanned B ts HB). unfold Json.parse. now rewrite HB.
Qed.

(** C6. Let [B] be a body that JSON.parse accepts (a JSON array, or any
    other JSON text).  Wrapped in an opening [```json] fence, followed by
    any white space, and a closing [```] fence, preceded by any JSON white
    space (a line feed each in the specification's example), it is cleaned
    and parsed to the same value as [B] alone, and [fetchRecipes] leaves
    the page with the same recipes, flag and error for both responses. *)
Theorem fenced_body_parses_alike
        (st : N) (ws1 B ws2 : string) (v : value) (before : Cells) :
  Json.parse B = Some v ->
  Js.allChars Js.isWhiteSpace ws1 = true ->
  Js.allChars isJsonSpace ws2 = true ->
  Json.parse (cleanedText (fenced ws1 B ws2)) = Json.parse (cleanedText B)
  /\ Json.parse (cleanedText B) = Some v
  /\ fetchRecipes P (mkResponse st (Some (fenced ws1 B ws2))) before
     = fetchRecipes P (mkResponse st (Some B)) before.
Proof.
  intros Hp H1 H2. destruct (parse_fenced ws1 B ws2 v Hp H1 H2) as [Hf Hb].
  split; [congruence|]. split; [exact Hb|].
  destruct (ok (mkResponse st (Some B))) eqn:Hok.
  - unfold fetchRecipes, fetchBody.
    change (ok (mkResponse st (Some (fenced ws1 B ws2)))) with (ok (mkResponse st (Some B))).
    rewrite Hok. cbv [negb bind ret text consumeBody JSON_parse body].
    now rewrite Hf, Hb.
  - rewrite (nonOk_displays_bodyUsed P (mkResponse st (Some (fenced ws1 B ws2)))
               (fenced ws1 B ws2) before Hok eq_refl).
    now rewrite (nonOk_displays_bodyUsed P (mkResponse st (Some B)) B before Hok eq_refl).
Qed.

End Fences.

Lemma fenced_body_parses_alike_witness :
  Json.parse twoRecipesText = Some (Json.JArray twoRecipesParsed)
  /\ Js.allChars Js.isWhiteSpace RecipeClient.lineFeed = true
  /\ Js.allChars Json.isJsonSpace RecipeClient.lineFeed = true
  /\ Json.parse (RecipeClient.cleanedText
                   (RecipeClient.fenced RecipeClient.lineFeed twoRecipesText
                                        RecipeClient.lineFeed))
     = Json.parse (RecipeClient.cleanedText twoRecipesText)
  /\ Json.parse (RecipeClient.cleanedText twoRecipesText)
     = Some (Json.JArray twoRecipesParsed)
  /\ RecipeClient.fetchRecipes chromium
       (RecipeClient.mkResponse 200
          (Some (RecipeClient.fenced RecipeClient.lineFeed twoRecipesText
                                     RecipeClient.lineFeed))) loading
     = RecipeClient.fetchRecipes chromium
         (RecipeClient.mkResponse 200 (Some twoRecipesText)) loading.
Proof.
  split; [reflexivity|]. split; [reflexivity|]. split; [reflexivity|].
  apply (fenced_body_parses_alike chromium 200 RecipeClient.lineFeed twoRecipesText
           RecipeClient.lineFeed (Json.JArray twoRecipesParsed) loading);
    reflexivity.
Defined.

(* ================================================================== *)
(** * Properties: the view router                                      *)
(* ================================================================== *)

Section Router.

Import Ui.

Lemma fire_keeps_page_and_child (e : Event) (s s' : State) :
  fire e s = Some s' ->
  (match child s with HomeMounted _ => App.page (app s) = App.home
                 | RecipesMounted _ => App.page (app s) = App.recipes end) ->
  match child s' with HomeMounted _ => App.page (app s') = App.home
                 | RecipesMounted _ => App.page (app s') = App.recipes end.
Proof.
  destruct s as [a c]. unfold fire. simpl. intros H Hinv.
  destruct e; destruct c as [h|r]; simpl in H;
    repeat match type of H with
      | context [match ?x with _ => _ end] => destruct x eqn:?; simpl in H
      end;
    try discriminate; inversion H; subst; clear H; simpl in *;
    try rewrite Hinv; simpl; auto.
Qed.

(** What holds at the start and is kept by every event holds in every
    reachable state. *)
Lemma reachable_invariant (Inv : State -> Prop) :
  Inv initial ->
  (forall e s s', fire e s = Some s' -> Inv s -> Inv s') ->
  forall s, reachable s -> Inv s.
Proof.
  intros H0 Hstep s [es Hes]. revert Hes. generalize initial, H0.
  induction es as [|e es IH]; simpl; intros s0 Hs0 Hrun.
  - inversion Hrun. now subst.
  - destruct (fire e s0) as [s1|] eqn:Hf; [|discriminate].
    eapply IH; [|exact Hrun]. eapply Hstep; eassumption.
Qed.

(** In every reachable state the mounted child is the one of the page. *)
Lemma reachable_page_child (s : State) :
  reachable s ->
  match child s with HomeMounted _ => App.page (app s) = App.home
                | RecipesMounted _ => App.page (app s) = App.recipes end.
Proof.
  apply reachable_invariant with
    (Inv := fun s => match child s with
                     | HomeMounted _ => App.page (app s) = App.home
                     | RecipesMounted _ => App.page (app s) = App.recipes
                     end).
  - reflexivity.
  - intros e s0 s'. apply fire_keeps_page_and_child.
Qed.

(** In every reachable state the home screen's servings counter is at
    least 1. *)
Lemma reachable_servings (s : State) (h : HomePage.State) :
  reachable s -> child s = HomeMounted h -> (1 <= HomePage.servings h)%Z.
Proof.
  intros Hr Hc.
  assert (G : match child s with
              | HomeMounted h => (1 <= HomePage.servings h)%Z
              | RecipesMounted _ => True
              end); [|now rewrite Hc in G].
  clear Hc. revert s Hr.
  apply reachable_invariant with
    (Inv := fun s => match child s with
                     | HomeMounted h => (1 <= HomePage.servings h)%Z
                     | RecipesMounted _ => True
                     end).
  - simpl. lia.
  - intros e [a c] s'. unfold fire. simpl. intros H Hinv.
    destruct e; destruct c as [h0|r0]; simpl in H;
      repeat match type of H with
        | context [match ?x with _ => _ end] => destruct x eqn:?; simpl in H
        end;
      try discriminate; inversion H; subst; clear H; simpl;
      try destruct (App.page a); simpl;
      unfold HomePage.handleAddIngredient, HomePage.addPopularIngredient,
        HomePage.handleDietaryChange, HomePage.handleRecognizeIngredients,
        HomePage.decrement, HomePage.increment in *;
      repeat match goal with
        | |- context [if ?x then _ else _] => destruct x
        | |- context [match ?x with _ => _ end] => destruct x
        end; simpl; try exact I; lia.
Qed.

Lemma fire_on_recipes (e : Event) (a : App.State) (r : RecipesPage.State) (s' : State) :
  notBack e = true ->
  App.page a = App.recipes ->
  fire e (mkState a (RecipesMounted r)) = Some s' ->
  exists r', child s' = RecipesMounted r'
             /\ App.page (app s') = App.recipes
             /\ App.searchParams (app s') = App.searchParams a.
Proof.
  intros He Hp H. unfold fire in H. simpl in H.
  destruct e; try discriminate He; simpl in H;
    repeat match type of H with
      | context [match ?x with _ => _ end] => destruct x eqn:?; simpl in H
      end;
    try discriminate H; inversion H; subst; clear H; simpl;
    try rewrite Hp; simpl; eauto.
Qed.

Lemma run_on_recipes (es : list Event) :
  forall (a : App.State) (r : RecipesPage.State) (s' : State),
    forallb notBack es = true ->
    App.page a = App.recipes ->
    run es (mkState a (RecipesMounted r)) = Some s' ->
    exists r', child s' = RecipesMounted r'
               /\ App.page (app s') = App.recipes
               /\ App.searchParams (app s') = App.searchParams a.
Proof.
  induction es as [|e es IH]; simpl; intros a r s' Hes Hp Hrun.
  - inversion Hrun; subst. simpl. eauto.
  - apply andb_true_iff in Hes as [He Hes].
    destruct (fire e (mkState a (RecipesMounted r))) as [[a1 c1]|] eqn:Hf; [|discriminate].
    destruct (fire_on_recipes e a r _ He Hp Hf) as [r1 [Hc [Hp1 Hq1]]].
    simpl in Hc, Hp1, Hq1. subst c1.
    destruct (IH a1 r1 s' Hes Hp1 Hrun) as [r' [Hc' [Hp' Hq']]].
    exists r'. repeat split; congruence.
Qed.

(** C7, as the code has it.  From every state of the recipes screen (the
    request under way or answered, filters moved, a modal open or not) the
    back transition mounts the home screen anew: its ingredient list is
    empty again and its other cells are back at their initial values,
    while the router's [searchParams] stay as they are.  So whatever the
    home screen held when the search was submitted, and whatever happened
    on the recipes screen since, the list that was entered survives the
    way there and back only in [searchParams], which the home screen does
    not read. *)
Theorem back_to_home_starts_afresh (s s2 : State) (r : RecipesPage.State) :
  child s = RecipesMounted r ->
  fire ClickBack s = Some s2 ->
  child s2 = HomeMounted HomePage.initial
  /\ shownIngredients s2 = Some []
  /\ App.page (app s2) = App.home
  /\ App.searchParams (app s2) = App.searchParams (app s)
  /\ forall (s0 s1 : State) (h : HomePage.State) (es : list Event),
       child s0 = HomeMounted h ->
       fire ClickFind s0 = Some s1 ->
       forallb notBack es = true ->
       run es s1 = Some s ->
       HomePage.ingredients h <> []
       /\ App.ingredients (App.searchParams (app s2)) = HomePage.ingredients h.
Proof.
  destruct s as [a c]. simpl. intros -> H2.
  unfold fire in H2. simpl in H2. inversion H2; subst; clear H2. simpl.
  split; [reflexivity|]. split; [reflexivity|]. split; [reflexivity|].
  split; [reflexivity|].
  intros [a0 c0] s1 h es Hc Hfind Hes Hrun. simpl in Hc. subst c0.
  unfold fire in Hfind. simpl in Hfind.
  destruct (HomePage.ingredients h) as [|i l] eqn:Hi; [discriminate Hfind|].
  simpl in Hfind. inversion Hfind; subst; clear Hfind.
  split; [discriminate|].
  unfold render in Hrun. simpl in Hrun.
  apply run_on_recipes in Hrun; [|assumption|reflexivity].
  destruct Hrun as [r' [_ [_ Hq]]]. simpl in Hq. now rewrite Hq.
Qed.

Lemma back_to_home_starts_afresh_witness :
  run [TypeInput "Rice"; SubmitAdd] initial = Some riceEntered
  /\ fire ClickFind riceEntered = Some riceSubmitted
  /\ run [FetchLoaded [soup]; FilterEffect; SlideMaxTime 60; FilterEffect; ClickCard 0]
         riceSubmitted
     = Some soupOpenedAtSixty
  /\ child (render (App.handleBackToHome (app soupOpenedAtSixty)) (child soupOpenedAtSixty))
     = HomeMounted HomePage.initial
  /\ shownIngredients
       (render (App.handleBackToHome (app soupOpenedAtSixty)) (child soupOpenedAtSixty))
     = Some []
  /\ App.ingredients
       (App.searchParams
          (app (render (App.handleBackToHome (app soupOpenedAtSixty))
                       (child soupOpenedAtSixty))))
     = ["rice"].
Proof.
  split; [reflexivity|]. split; [reflexivity|]. split; [reflexivity|].
  destruct (back_to_home_starts_afresh soupOpenedAtSixty
              (render (App.handleBackToHome (app soupOpenedAtSixty))
                      (child soupOpenedAtSixty))
              _ eq_refl eq_refl) as [H1 [H2 [_ [_ H5]]]].
  split; [exact H1|]. split; [exact H2|].
  exact (proj2 (H5 riceEntered riceSubmitted _
                   [FetchLoaded [soup]; FilterEffect; SlideMaxTime 60; FilterEffect;
                    ClickCard 0]
                   eq_refl eq_refl eq_refl eq_refl)).
Defined.

(** C7, as the claim states it, fails: with "rice" entered, searching and
    going back shows an empty list, not the list entered before. *)
Lemma back_to_home_keeps_ingredients_fails :
  ~ (forall s s1 s2 : State,
        reachable s ->
        fire ClickFind s = Some s1 ->
        fire ClickBack s1 = Some s2 ->
        shownIngredients s2 = shownIngredients s).
Proof.
  intros H.
  specialize (H riceEntered riceSubmitted _
                (ex_intro _ [TypeInput "Rice"; SubmitAdd] eq_refl)
                eq_refl eq_refl).
  vm_compute in H. discriminate H.
Qed.

(** C8, as the code has it.  The selected recipe is a cell of its own:
    the back transition sets the page to home and leaves the selection as
    it was; a modal comes up only by a click on a card of the mounted
    recipes screen, and once up it goes away only through its own cross. *)
Theorem modal_is_independent_of_page (e : Event) (s s' : State) :
  fire e s = Some s' ->
  (e = ClickBack ->
   App.page (app s') = App.home
   /\ App.selectedRecipe (app s') = App.selectedRecipe (app s))
  /\ (App.modalShown (app s) = false -> App.modalShown (app s') = true ->
      exists r i, child s = RecipesMounted r /\ e = ClickCard i)
  /\ (App.modalShown (app s) = true -> App.modalShown (app s') = false ->
      e = ClickClose).
Proof.
  destruct s as [[pg sp sel] c]. unfold fire, App.modalShown. simpl. intros H.
  destruct e; destruct c as [h|r]; simpl in H;
    repeat match type of H with
      | context [match ?x with _ => _ end] => destruct x eqn:?; simpl in H
      end;
    try discriminate; inversion H; subst; clear H; simpl;
    (split; [intros He; try discriminate He; auto|]);
    (split; [intros H1 H2; try congruence; eauto | intros H1 H2; congruence]).
Qed.

Lemma modal_is_independent_of_page_witness :
  run (searchedForRice ++ [ClickCard 0]) initial = Some soupOpened
  /\ fire ClickBack soupOpened
     = Some (render (App.handleBackToHome (app soupOpened)) (child soupOpened))
  /\ App.page (App.handleBackToHome (app soupOpened)) = App.home
  /\ App.selectedRecipe (App.handleBackToHome (app soupOpened)) = Some soup.
Proof.
  split; [reflexivity|]. split; [reflexivity|].
  exact (proj1 (modal_is_independent_of_page ClickBack soupOpened
                  (render (App.handleBackToHome (app soupOpened)) (child soupOpened))
                  eq_refl) eq_refl).
Defined.

(** C8, as the claim states it, fails: with a recipe's modal open, the
    back transition reaches the home page with the modal still shown. *)
Lemma modal_only_on_recipes_fails :
  ~ (forall s : State,
        reachable s ->
        App.modalShown (app s) = true -> App.page (app s) = App.recipes).
Proof.
  intros H.
  assert (R : exists s, run (searchedForRice ++ [ClickCard 0; ClickBack]) initial = Some s
                        /\ App.modalShown (app s) = true
                        /\ App.page (app s) = App.home).
  { eexists. split; [vm_compute; reflexivity|]. split; reflexivity. }
  destruct R as [s [Hrun [Hm Hp]]].
  specialize (H s (ex_intro _ _ Hrun) Hm). congruence.
Qed.

End Router.

(* ================================================================== *)
(** * Properties: adding, removing and merging ingredients             *)
(* ================================================================== *)

Section StoreOperations.

Import HomePage.

Lemma trimStart_blank (v : string) :
  Js.allChars Js.isWhiteSpace v = true -> Js.trimStart v = EmptyString.
Proof.
  induction v as [|c v IH]; simpl; [reflexivity|].
  intros H. apply andb_true_iff in H as [Hc Hv]. rewrite Hc. now apply IH.
Qed.

(** X1. Submitting a text field that is empty or holds white space only
    changes nothing: no entry is stored and the field keeps its text. *)
Theorem add_blank_changes_nothing (s : State) :
  Js.allChars Js.isWhiteSpace (inputValue s) = true ->
  handleAddIngredient s = s.
Proof.
  intros H. unfold handleAddIngredient, Js.trim.
  now rewrite (trimStart_blank _ H).
Qed.

Lemma add_blank_changes_nothing_witness :
  handleAddIngredient (setInputValue "   " initial) = setInputValue "   " initial.
Proof. apply (add_blank_changes_nothing (setInputValue "   " initial)). reflexivity. Defined.

Lemma includes_last (l : list string) (x : string) : Js.includes (l ++ [x]) x = true.
Proof. apply includes_In, in_or_app. right. now left. Qed.

(** X2. A text that trims and lower-cases to the same entry as the text
    added before it is not stored a second time: after the first
    submission the second one leaves the store as it is. *)
Theorem add_same_entry_twice (v v' : string) (s : State) :
  Js.toLowerCase (Js.trim v) = Js.toLowerCase (Js.trim v') ->
  ingredients (handleAddIngredient
                 (setInputValue v' (handleAddIngredient (setInputValue v s))))
  = ingredients (handleAddIngredient (setInputValue v s)).
Proof.
  intros E. unfold handleAddIngredient at 2 3. simpl.
  destruct (negb (Js.toLowerCase (Js.trim v) =? "")) eqn:N; simpl.
  - destruct (Js.includes (ingredients s) (Js.toLowerCase (Js.trim v))) eqn:I; simpl.
    + unfold handleAddIngredient. simpl. rewrite <- E, N, I. reflexivity.
    + unfold handleAddIngredient. simpl. rewrite <- E, N, includes_last. reflexivity.
  - unfold handleAddIngredient. simpl. rewrite <- E, N. reflexivity.
Qed.

Lemma add_same_entry_twice_witness :
  ingredients (handleAddIngredient
                 (setInputValue " chicken "
                    (handleAddIngredient (setInputValue "Chicken" initial))))
  = ingredients (handleAddIngredient (setInputValue "Chicken" initial)).
Proof. apply (add_same_entry_twice "Chicken" " chicken " initial). reflexivity. Defined.

Lemma includes_false (l : list string) (x : string) :
  Js.includes l x = false <-> ~ In x l.
Proof.
  rewrite <- includes_In. destruct (Js.includes l x); split; intros; congruence.
Qed.

Lemma filter_out_In (x y : string) (l : list string) :
  In y (List.filter (fun ing => negb (ing =? x)) l) <-> In y l /\ y <> x.
Proof.
  rewrite filter_In, negb_true_iff, String.eqb_neq. reflexivity.
Qed.

Lemma filter_out_absent (x : string) (l : list string) :
  ~ In x l -> List.filter (fun ing => negb (ing =? x)) l = l.
Proof.
  induction l as [|y l IH]; simpl; intros H; [reflexivity|].
  destruct (String.eqb_spec y x) as [->|_]; simpl.
  - exfalso. apply H. now left.
  - rewrite IH; [reflexivity|]. intros Hx. apply H. now right.
Qed.

(** X3. Removing an ingredient takes every entry equal to it out of the
    store and nothing else: the other entries stay, in their order; an
    ingredient that is not in the store leaves the store as it is. *)
Theorem remove_takes_only_that_entry (x : string) (s : State) :
  ~ In x (ingredients (handleRemoveIngredient x s))
  /\ (forall y, y <> x ->
                (In y (ingredients (handleRemoveIngredient x s)) <-> In y (ingredients s)))
  /\ Subsequence (ingredients (handleRemoveIngredient x s)) (ingredients s)
  /\ (~ In x (ingredients s) ->
      ingredients (handleRemoveIngredient x s) = ingredients s).
Proof.
  unfold handleRemoveIngredient. simpl. repeat split.
  - rewrite filter_out_In. tauto.
  - rewrite filter_out_In. tauto.
  - rewrite filter_out_In. tauto.
  - apply filter_Subsequence.
  - apply filter_out_absent.
Qed.

(** X4. Removing a normalized entry and adding it again brings it back,
    at the end of the store. *)
Theorem remove_then_add_moves_to_end (x : string) (s : State) :
  normalized x -> x <> EmptyString ->
  ingredients (handleAddIngredient (setInputValue x (handleRemoveIngredient x s)))
  = (List.filter (fun ing => negb (ing =? x)) (ingredients s) ++ [x])%list.
Proof.
  intros Hn Hx. unfold handleAddIngredient. simpl. unfold normalized in Hn. rewrite Hn.
  apply String.eqb_neq in Hx. rewrite Hx. simpl.
  assert (I : Js.includes (List.filter (fun ing => negb (ing =? x)) (ingredients s)) x = false).
  { apply includes_false. rewrite filter_out_In. tauto. }
  rewrite I. reflexivity.
Qed.

Lemma remove_then_add_moves_to_end_witness :
  ingredients (handleAddIngredient
                 (setInputValue "rice"
                    (handleRemoveIngredient "rice"
                       (setIngredients ["rice"; "beans"] initial))))
  = ["beans"; "rice"].
Proof.
  apply (remove_then_add_moves_to_end "rice" (setIngredients ["rice"; "beans"] initial));
    [reflexivity | discriminate].
Defined.

Lemma uniqueFrom_In (arr : list string) :
  forall seen x, In x (Js.uniqueFrom seen arr) <-> In x arr /\ ~ In x seen.
Proof.
  induction arr as [|a arr IH]; intros seen x; simpl; [tauto|].
  destruct (Js.includes seen a) eqn:I.
  - apply includes_In in I. rewrite IH. split.
    + tauto.
    + intros [[->|H] Hs]; tauto.
  - apply includes_false in I. simpl. rewrite IH, in_app_iff. simpl.
    destruct (string_dec a x) as [->|Hne]; tauto.
Qed.

Lemma uniqueFrom_NoDup (arr : list string) :
  forall seen, NoDup (Js.uniqueFrom seen arr).
Proof.
  induction arr as [|a arr IH]; intros seen; simpl; [constructor|].
  destruct (Js.includes seen a); [apply IH|].
  constructor; [|apply IH].
  rewrite uniqueFrom_In, in_app_iff. simpl. tauto.
Qed.

Lemma uniqueFrom_prefix (a : list string) :
  forall seen b,
    NoDup a -> (forall x, In x a -> ~ In x seen) ->
    Js.uniqueFrom seen (a ++ b) = (a ++ Js.uniqueFrom (seen ++ a) b)%list.
Proof.
  induction a as [|x a IH]; intros seen b Hd Hs; simpl.
  - now rewrite app_nil_r.
  - inversion Hd as [|? ? Hx Hd']; subst.
    assert (I : Js.includes seen x = false).
    { apply includes_false, Hs. now left. }
    rewrite I. f_equal. rewrite IH; [|assumption|].
    + now rewrite <- app_assoc.
    + intros y Hy. rewrite in_app_iff. simpl. intros [H|[->|[]]].
      * apply (Hs y); [now right | assumption].
      * contradiction.
Qed.

(** X5. The merge of the recognized names into the store holds every
    name of either list, each once; a store without repeated entries
    stays in front, in its order, and what follows it comes from the
    recognized names. *)
Theorem merge_keeps_store_in_front (store recognized : list string) :
  NoDup (mergeRecognized store recognized)
  /\ (forall x, In x (mergeRecognized store recognized)
                <-> In x store \/ In x recognized)
  /\ (NoDup store ->
      exists added, mergeRecognized store recognized = (store ++ added)%list
                    /\ forall x, In x added -> In x recognized /\ ~ In x store).
Proof.
  unfold mergeRecognized, Js.arrayFromSet. split; [|split].
  - apply uniqueFrom_NoDup.
  - intros x. rewrite uniqueFrom_In, in_app_iff. simpl. tauto.
  - intros Hd. exists (Js.uniqueFrom store recognized). split.
    + rewrite uniqueFrom_prefix; [reflexivity | assumption | auto].
    + intros x. now rewrite uniqueFrom_In.
Qed.

End StoreOperations.

(* ================================================================== *)
(** * Properties: sessions on the home screen                          *)
(* ================================================================== *)

Section HomeSessions.

Import Ui.

(** Splitting the hypothesis of a fired event into its cases. *)
Ltac fired H :=
  repeat match type of H with
    | context [match ?x with _ => _ end] => destruct x eqn:?; simpl in H
    end;
  try discriminate H; inversion H; subst; clear H; simpl.

Lemma fire_during_recognition (e : Event) (a : App.State) (h : HomePage.State)
      (s' : State) (captured : list string) :
  duringRecognition e = true ->
  HomePage.pending h = Some captured ->
  fire e (mkState a (HomeMounted h)) = Some s' ->
  exists h', s' = mkState a (HomeMounted h') /\ HomePage.pending h' = Some captured.
Proof.
  intros He Hp H. unfold fire in H. simpl in H.
  destruct e; try discriminate He; simpl in H; fired H; eexists; split;
    try reflexivity; simpl; try assumption.
  - unfold HomePage.handleAddIngredient.
    destruct (_ && _); simpl; assumption.
  - unfold HomePage.addPopularIngredient.
    destruct (negb _); simpl; assumption.
  - unfold HomePage.handleDietaryChange.
    repeat match goal with |- context [if ?x then _ else _] => destruct x end;
      simpl; assumption.
Qed.

Lemma run_during_recognition (es : list Event) :
  forall (a : App.State) (h : HomePage.State) (s' : State) (captured : list string),
    forallb duringRecognition es = true ->
    HomePage.pending h = Some captured ->
    run es (mkState a (HomeMounted h)) = Some s' ->
    exists h', s' = mkState a (HomeMounted h') /\ HomePage.pending h' = Some captured.
Proof.
  induction es as [|e es IH]; simpl; intros a h s' captured Hes Hp Hrun.
  - inversion Hrun; subst. eauto.
  - apply andb_true_iff in Hes as [He Hes].
    destruct (fire e (mkState a (HomeMounted h))) as [s1|] eqn:Hf; [|discriminate].
    destruct (fire_during_recognition e a h s1 captured He Hp Hf) as [h1 [-> Hp1]].
    eapply IH; eassumption.
Qed.

(** X6. The answer of the recognition service is merged into the store
    as it was when "Find Ingredients from Photo" was clicked: whatever was
    added to or removed from the store while the request was under way is
    overwritten when the answer arrives. *)
Theorem recognition_answer_overwrites_later_edits
        (s0 s1 s2 s3 : State) (h0 : HomePage.State) (es : list Event)
        (recognized : list string) :
  child s0 = HomeMounted h0 ->
  fire ClickRecognize s0 = Some s1 ->
  forallb duringRecognition es = true ->
  run es s1 = Some s2 ->
  fire (RecognizeOk recognized) s2 = Some s3 ->
  shownIngredients s3
  = Some (HomePage.mergeRecognized (HomePage.ingredients h0) recognized).
Proof.
  destruct s0 as [a c]. simpl. intros -> H1 Hes Hrun H3.
  unfold fire in H1. simpl in H1.
  destruct (HomePage.imageFile h0) eqn:Hi; [|discriminate H1].
  destruct (HomePage.isRecognizing h0); [discriminate H1|].
  inversion H1; subst; clear H1.
  assert (Hp : HomePage.pending (HomePage.handleRecognizeIngredients h0)
               = Some (HomePage.ingredients h0)).
  { unfold HomePage.handleRecognizeIngredients. now rewrite Hi. }
  destruct (run_during_recognition es _ _ _ _ Hes Hp Hrun) as [h2 [-> Hp2]].
  unfold fire in H3. simpl in H3. rewrite Hp2 in H3.
  inversion H3; subst. reflexivity.
Qed.

Lemma recognition_answer_overwrites_later_edits_witness :
  exists s1 s2 s3,
    fire ClickRecognize riceWithPhoto = Some s1
    /\ run [TypeInput "beans"; SubmitAdd] s1 = Some s2
    /\ shownIngredients s2 = Some ["rice"; "beans"]
    /\ fire (RecognizeOk ["tomato"]) s2 = Some s3
    /\ shownIngredients s3 = Some ["rice"; "tomato"].
Proof.
  eexists (mkState _ _). eexists (mkState _ _). eexists (mkState _ _).
  split; [reflexivity|]. split; [reflexivity|]. split; [reflexivity|].
  split; [reflexivity|].
  exact (recognition_answer_overwrites_later_edits
           riceWithPhoto _ _ _ _ [TypeInput "beans"; SubmitAdd] ["tomato"]
           eq_refl eq_refl eq_refl eq_refl eq_refl).
Defined.

Lemma selectedDietary_In (d : DietaryPreferences) (name : string) :
  In name (HomePage.selectedDietary d)
  <-> In name dietaryKeys /\ dietaryFlag name d = true.
Proof.
  unfold dietaryKeys. split.
  - destruct d as [[] [] []]; simpl; intuition (subst; simpl; auto).
  - intros [[<-|[<-|[<-|[]]]] H]; destruct d as [[] [] []]; simpl in *;
      try discriminate H; auto.
Qed.

(** X7. The dietary names of a query are exactly the preferences whose
    box is checked, each once. *)
Theorem selected_dietary_are_the_checked_boxes (d : DietaryPreferences) :
  NoDup (HomePage.selectedDietary d)
  /\ forall name, In name (HomePage.selectedDietary d)
                  <-> In name dietaryKeys /\ dietaryFlag name d = true.
Proof.
  split; [|apply selectedDietary_In].
  destruct d as [[] [] []]; simpl; repeat constructor; simpl; intuition discriminate.
Qed.

(** X8. Clicking a dietary box twice leaves the home screen as it was. *)
Theorem dietary_click_twice_restores (i : nat) (s s1 : State) :
  fire (ClickDietary i) s = Some s1 ->
  fire (ClickDietary i) s1 = Some s.
Proof.
  destruct s as [a [h|r]]; unfold fire; simpl; [|discriminate].
  destruct h as [ing inp [v1 v2 v3] srv cui img pre rec err pen].
  destruct i as [|[|[|i]]]; simpl; intros H;
    [ | | | destruct i; discriminate H];
    inversion H; subst; clear H; destruct v1, v2, v3; reflexivity.
Qed.

Lemma dietary_click_twice_restores_witness :
  fire (ClickDietary 1) (mkState App.initial
                           (HomeMounted (HomePage.handleDietaryChange "vegan" true
                                           HomePage.initial)))
  = Some initial.
Proof. apply (dietary_click_twice_restores 1 initial). reflexivity. Defined.

End HomeSessions.

(* ================================================================== *)
(** * Properties: the difficulty buttons and the two filters           *)
(* ================================================================== *)

Section Filters.

Import RecipesPage.

Lemma toggle_In (d : string) (prev : list string) (x : string) :
  In x (RecipesPage.toggle d prev) <-> (x = d /\ ~ In d prev) \/ (x <> d /\ In x prev).
Proof.
  unfold toggle. destruct (Js.includes prev d) eqn:I.
  - apply includes_In in I. rewrite filter_out_In.
    destruct (string_dec x d) as [->|Hne]; tauto.
  - apply includes_false in I. rewrite in_app_iff. simpl.
    destruct (string_dec x d) as [->|Hne]; [tauto|].
    split; [intros [H|[H|[]]]; [tauto | congruence] | tauto].
Qed.

(** X9. A click on a difficulty button flips that difficulty in the
    selection and touches no other: afterwards it is selected iff it was
    not, and every other difficulty is selected iff it was; no difficulty
    comes to stand twice in the selection. *)
Theorem toggle_flips_one_difficulty (d : string) (prev : list string) :
  (forall x, In x (toggle d prev) <-> (x = d /\ ~ In d prev) \/ (x <> d /\ In x prev))
  /\ (NoDup prev -> NoDup (toggle d prev)).
Proof.
  split; [intros x; apply toggle_In|].
  intros H. unfold toggle. destruct (Js.includes prev d) eqn:I.
  - now apply NoDup_filter.
  - apply includes_false in I. apply NoDup_app; [assumption | repeat constructor; intros [] |].
    intros x Hx [<-|[]]. contradiction.
Qed.

Lemma filter_out_app (d : string) (l1 l2 : list string) :
  List.filter (fun x => negb (x =? d)) (l1 ++ l2)
  = (List.filter (fun x => negb (x =? d)) l1 ++ List.filter (fun x => negb (x =? d)) l2)%list.
Proof. apply filter_app. Qed.

(** X10. Selecting a difficulty that was not selected and clicking it
    again gives back the selection as it was, in the same order. *)
Theorem toggle_twice_restores (d : string) (prev : list string) :
  ~ In d prev -> toggle d (toggle d prev) = prev.
Proof.
  intros H. unfold toggle at 2. rewrite (proj2 (includes_false prev d) H).
  unfold toggle. rewrite includes_last, filter_out_app, (filter_out_absent d prev H).
  simpl. rewrite String.eqb_refl. simpl. apply app_nil_r.
Qed.

Lemma toggle_twice_restores_witness :
  toggle "Hard" (toggle "Hard" ["Easy"]) = ["Easy"].
Proof. apply (toggle_twice_restores "Hard" ["Easy"]). simpl. intuition discriminate. Defined.

Lemma toggle_NoDup (d : string) (prev : list string) :
  NoDup prev -> NoDup (toggle d prev).
Proof.
  intros H. unfold toggle. destruct (Js.includes prev d) eqn:I.
  - now apply NoDup_filter.
  - apply includes_false in I. apply NoDup_app; [assumption | repeat constructor; intros [] |].
    intros x Hx [<-|[]]. contradiction.
Qed.

Lemma toggle_incl (d : string) (prev l : list string) :
  In d l -> incl prev l -> incl (toggle d prev) l.
Proof.
  intros Hd Hp x Hx. apply toggle_In in Hx.
  destruct Hx as [[-> _]|[_ Hx]]; auto.
Qed.

Lemma filter_Subsequence_weaker {A} (p q : A -> bool) (l : list A) :
  (forall a, p a = true -> q a = true) ->
  Subsequence (List.filter p l) (List.filter q l).
Proof.
  intros H. induction l as [|a l IH]; simpl; [constructor|].
  destruct (p a) eqn:Pa.
  - rewrite (H a Pa). now constructor.
  - destruct (q a); [now constructor | assumption].
Qed.

(** X11. Moving the slider up never takes a recipe off the list: what is
    shown under a bound is shown, in the same order, under every larger
    bound. *)
Theorem larger_bound_shows_more (R : list Recipe.t) (D : list string) (T T' : Z) :
  (T <= T')%Z ->
  Subsequence (filterEffect R D T) (filterEffect R D T').
Proof.
  intros H. rewrite !filterEffect_one_pass. apply filter_Subsequence_weaker.
  intros r. unfold keeps. rewrite !andb_true_iff, !Z.leb_le. intuition lia.
Qed.

Lemma larger_bound_shows_more_witness :
  Subsequence (filterEffect [soup] ["Easy"] 30) (filterEffect [soup] ["Easy"] 60).
Proof. apply (larger_bound_shows_more [soup] ["Easy"] 30 60). lia. Defined.

(** X12. Selecting further difficulties beside a selection that is not
    empty, or clearing the selection, never takes a recipe off the list. *)
Theorem wider_selection_shows_more (R : list Recipe.t) (D D' : list string) (T : Z) :
  D' = [] \/ (D <> [] /\ incl D D') ->
  Subsequence (filterEffect R D T) (filterEffect R D' T).
Proof.
  intros H. rewrite !filterEffect_one_pass. apply filter_Subsequence_weaker.
  intros r. unfold keeps. rewrite !andb_true_iff, !orb_true_iff, !includes_In.
  intros [Hd Ht]. split; [|assumption].
  destruct H as [->|[Hne Hincl]]; [now left|].
  destruct Hd as [Hd|Hd]; [destruct D; [congruence | discriminate Hd]|].
  right. now apply Hincl.
Qed.

Lemma wider_selection_shows_more_witness :
  Subsequence (filterEffect [soup] ["Hard"] 60) (filterEffect [soup] ["Hard"; "Easy"] 60).
Proof.
  apply (wider_selection_shows_more [soup] ["Hard"] ["Hard"; "Easy"] 60).
  right. split; [discriminate | intros x [<-|[]]; now left].
Defined.

(** X13. The order of the two tests does not matter: testing the cooking
    time first and the difficulty second gives the list of the effect,
    which tests them the other way round. *)
Theorem filters_commute (R : list Recipe.t) (D : list string) (T : Z) :
  (if (0 <? List.length D)%nat
   then List.filter (fun recipe => Js.includes D (Recipe.difficulty recipe))
                    (List.filter (fun recipe => (Recipe.cookingTime recipe <=? T)%Z) R)
   else List.filter (fun recipe => (Recipe.cookingTime recipe <=? T)%Z) R)
  = filterEffect R D T.
Proof.
  unfold filterEffect. destruct (0 <? List.length D)%nat; [|reflexivity].
  rewrite !filter_filter. apply filter_ext. intros r. apply andb_comm.
Qed.

End Filters.

(* ================================================================== *)
(** * Properties: sessions on the recipes screen                       *)
(* ================================================================== *)

Section RecipesSessions.

Import Ui.

Ltac fired H :=
  repeat match type of H with
    | context [match ?x with _ => _ end] => destruct x eqn:?; simpl in H
    end;
  try discriminate H; inversion H; subst; clear H; simpl.

Lemma Subsequence_nil {A} (l : list A) : Subsequence [] l.
Proof. induction l; now constructor. Qed.

Lemma filterEffect_nil (D : list string) (T : Z) : RecipesPage.filterEffect [] D T = [].
Proof. unfold RecipesPage.filterEffect. now destruct (0 <? List.length D)%nat. Qed.

Lemma filterEffect_bound (R : list Recipe.t) (D : list string) (T : Z) (recipe : Recipe.t) :
  In recipe (RecipesPage.filterEffect R D T) -> (Recipe.cookingTime recipe <= T)%Z.
Proof.
  rewrite filterEffect_one_pass, filter_In. unfold RecipesPage.keeps.
  intros [_ H]. apply andb_true_iff in H as [_ H]. now apply Z.leb_le.
Qed.

Lemma recipesScreenOk_initial : recipesScreenOk RecipesPage.initial.
Proof.
  unfold recipesScreenOk. simpl.
  split; [constructor|]. split; [intros x []|]. split; [constructor|].
  split; [intros x []|]. split; [lia|]. split; [reflexivity|]. auto.
Qed.

Lemma fire_recipesScreenOk (e : Event) (s s' : State) :
  fire e s = Some s' ->
  match child s with RecipesMounted r => recipesScreenOk r | HomeMounted _ => True end ->
  match child s' with RecipesMounted r => recipesScreenOk r | HomeMounted _ => True end.
Proof.
  destruct s as [a c]. unfold fire. simpl. intros H Hinv.
  destruct e; destruct c as [h|r]; simpl in H; fired H;
    try destruct (App.page a); simpl;
    try exact I; try exact recipesScreenOk_initial; try assumption;
    unfold recipesScreenOk in *; simpl;
    destruct Hinv as [Hs [Hb [Hn [Hi [Hr [Hm Hl]]]]]].
  all: repeat match goal with
         | H : _ && _ = true |- _ => apply andb_true_iff in H; destruct H
         | H : (_ <=? _)%Z = true |- _ => apply Z.leb_le in H
         | H : (_ =? _)%Z = true |- _ => apply Z.eqb_eq in H
         end.
  all: try match goal with
         | L : RecipesPage.isLoading _ = true |- _ => destruct (Hl L) as [He [Hrs Hfs]]
         end.
  all: repeat match goal with
         | |- _ /\ _ => split
         end;
    auto using toggle_NoDup, Subsequence_nil; try lia;
    try (rewrite filterEffect_one_pass; apply filter_Subsequence);
    try (intros recipe Hin; apply filterEffect_bound in Hin; lia);
    try (rewrite Hfs; apply Subsequence_nil);
    try (eapply toggle_incl; [eapply nth_error_In; eassumption | assumption]);
    try (intros L; try discriminate L;
         try (destruct (Hl L) as [? [E ?]]; repeat split; auto;
              simpl; rewrite E; apply filterEffect_nil);
         unfold RecipesPage.filtersShown in *; rewrite L in *; simpl in *; discriminate).
Qed.

Lemma reachable_recipesScreenOk (s : State) (r : RecipesPage.State) :
  reachable s -> child s = RecipesMounted r -> recipesScreenOk r.
Proof.
  intros Hr Hc.
  assert (G : match child s with
              | RecipesMounted r => recipesScreenOk r
              | HomeMounted _ => True
              end); [|now rewrite Hc in G].
  clear Hc. revert s Hr.
  apply reachable_invariant with
    (Inv := fun s => match child s with
                     | RecipesMounted r => recipesScreenOk r
                     | HomeMounted _ => True
                     end).
  - exact I.
  - intros e s0 s'. apply fire_recipesScreenOk.
Qed.

Lemma Subsequence_of_nil {A} (l : list A) : Subsequence l [] -> l = [].
Proof. intros H. now inversion H. Qed.

(** X14. At every moment of a session on the recipes screen, also in the
    renders that React commits before the filter effect has run, exactly
    one of the five blocks is on the page: the spinner, the error panel,
    the cards, "No Recipes Match Your Filters" or "No Recipes Found". *)
Theorem exactly_one_panel (s : State) (r : RecipesPage.State) :
  reachable s -> child s = RecipesMounted r -> exactlyOne (RecipesPage.panels r).
Proof.
  intros Hr Hc.
  destruct (reachable_recipesScreenOk s r Hr Hc) as [Hs [_ [_ [_ [_ [_ Hl]]]]]].
  destruct r as [rs l e df mt fr]. simpl in *.
  unfold exactlyOne, RecipesPage.panels, RecipesPage.spinnerShown, RecipesPage.errorShown,
    RecipesPage.cardsShown, RecipesPage.noMatchShown, RecipesPage.noFoundShown. simpl.
  destruct l.
  - destruct (Hl eq_refl) as [-> [-> ->]]. reflexivity.
  - destruct e as [m|]; [destruct (m =? "")|];
      (destruct rs as [|r0 rs]; [apply Subsequence_of_nil in Hs; subst fr; reflexivity|]);
      destruct fr; reflexivity.
Qed.

Lemma exactly_one_panel_witness :
  exactlyOne (RecipesPage.panels (RecipesPage.fetchLoaded [soup] RecipesPage.initial))
  /\ exactlyOne (RecipesPage.panels
                   (RecipesPage.runFilterEffect
                      (RecipesPage.fetchLoaded [soup] RecipesPage.initial))).
Proof.
  split.
  - apply (exactly_one_panel
             (mkState (App.handleFindRecipes ["rice"] [] 2 "Any" App.initial)
                (RecipesMounted (RecipesPage.fetchLoaded [soup] RecipesPage.initial))));
      [exact (ex_intro _ [TypeInput "Rice"; SubmitAdd; ClickFind; FetchLoaded [soup]]
                eq_refl)
      | reflexivity].
  - apply (exactly_one_panel soupListed);
      [exact (ex_intro _ searchedForRice eq_refl) | reflexivity].
Defined.

(** X15. What the recipes screen lists, at every moment of a session and
    also before the filter effect has caught up with the slider, is among
    the fetched recipes and takes at most 120 minutes: the slider ends at
    120, so a recipe that takes longer is never listed.  Once the effect
    has run, what is listed is within the bound that the slider shows. *)
Theorem long_recipes_are_never_listed (s : State) (r : RecipesPage.State)
        (recipe : Recipe.t) :
  reachable s -> child s = RecipesMounted r ->
  (In recipe (RecipesPage.filteredRecipes r) ->
   In recipe (RecipesPage.recipes r) /\ (Recipe.cookingTime recipe <= 120)%Z)
  /\ (In recipe (RecipesPage.filteredRecipes (RecipesPage.runFilterEffect r)) ->
      In recipe (RecipesPage.recipes r)
      /\ (Recipe.cookingTime recipe <= RecipesPage.maxTimeFilter r <= 120)%Z).
Proof.
  intros Hr Hc.
  destruct (reachable_recipesScreenOk s r Hr Hc) as [Hs [Hb [_ [_ [Ht _]]]]].
  split.
  - intros Hin. split; [|now apply Hb].
    clear Hb. induction Hs as [|x l1 l2 Hs IH|x l1 l2 Hs IH]; simpl in *.
    + contradiction.
    + right. now apply IH.
    + destruct Hin as [->|Hin]; [now left | right; now apply IH].
  - simpl. intros Hin. pose proof (filterEffect_bound _ _ _ _ Hin) as Hle.
    rewrite filterEffect_one_pass, filter_In in Hin. split; [apply Hin | lia].
Qed.

Lemma long_recipes_are_never_listed_witness :
  (In soup (RecipesPage.filteredRecipes
              (RecipesPage.runFilterEffect
                 (RecipesPage.fetchLoaded [soup] RecipesPage.initial))) ->
   In soup [soup] /\ (Recipe.cookingTime soup <= 120)%Z)
  /\ (In soup (RecipesPage.filteredRecipes
                 (RecipesPage.runFilterEffect
                    (RecipesPage.runFilterEffect
                       (RecipesPage.fetchLoaded [soup] RecipesPage.initial)))) ->
      In soup [soup] /\ (Recipe.cookingTime soup <= 120 <= 120)%Z).
Proof.
  apply (long_recipes_are_never_listed soupListed
           (RecipesPage.runFilterEffect
              (RecipesPage.fetchLoaded [soup] RecipesPage.initial)) soup);
    [exact (ex_intro _ searchedForRice eq_refl) | reflexivity].
Defined.

Lemma selectedDietary_NoDup (d : DietaryPreferences) : NoDup (HomePage.selectedDietary d).
Proof.
  destruct d as [[] [] []]; simpl; repeat constructor; simpl; intuition discriminate.
Qed.

Lemma fire_queryInv (e : Event) (s s' : State) :
  fire e s = Some s' -> queryInv s -> queryInv s'.
Proof.
  destruct s as [a c]. unfold fire, queryInv. simpl. intros H [Hh Hq].
  destruct e; destruct c as [h|r]; simpl in H; fired H;
    try (destruct (App.page a) eqn:Pg; simpl);
    unfold HomePage.handleAddIngredient, HomePage.addPopularIngredient,
      HomePage.handleDietaryChange, HomePage.handleRecognizeIngredients,
      HomePage.decrement, HomePage.increment in *;
    repeat match goal with
      | |- context [if ?x then _ else _] => destruct x
      | |- context [match ?x with _ => _ end] => destruct x
      end; simpl;
    repeat match goal with
      | H : (_ <=? _)%Z = false |- _ => apply Z.leb_gt in H
      | H : nth_error cuisines _ = Some _ |- _ => apply nth_error_In in H
      end;
    try (split; [try exact I; try (split; [lia | simpl; auto]) | try assumption]);
    try (intros _; unfold queryOk; simpl;
         repeat split;
         [ congruence | lia | tauto | apply selectedDietary_NoDup
         | intros x Hx; apply selectedDietary_In in Hx; tauto ]);
    try (intros; discriminate); try tauto.
  all: intros _; unfold queryOk; simpl; destruct Hh as [H1 H2]; repeat split;
    [ destruct (HomePage.ingredients h); [discriminate Heqb | discriminate]
    | assumption | exact H2 | apply selectedDietary_NoDup
    | intros x Hx; apply selectedDietary_In in Hx; tauto ].
Qed.

(** X16. "Find Recipes!" is disabled while the store is empty and the
    counter stops at 1, so every query that reaches the recipes screen has
    at least one ingredient, at least one serving, a cuisine of the list,
    and dietary names among the three, each once. *)
Theorem submitted_query_is_well_formed (s : State) :
  reachable s -> App.page (app s) = App.recipes ->
  queryOk (App.searchParams (app s)).
Proof.
  intros Hr. revert s Hr.
  assert (G : forall s, reachable s -> queryInv s); [|intros s Hr; apply (G s Hr)].
  apply reachable_invariant.
  - unfold queryInv. simpl. split; [split; [lia | now left] | discriminate].
  - apply fire_queryInv.
Qed.

Lemma submitted_query_is_well_formed_witness :
  queryOk (App.searchParams (app soupListed)).
Proof.
  apply (submitted_query_is_well_formed soupListed);
    [exact (ex_intro _ searchedForRice eq_refl) | reflexivity].
Defined.

(** X17. A click on a card opens the modal of the recipe at that place
    of the list shown, and the modal's cross brings the screen back to
    exactly what it was before the click. *)
Theorem select_then_close_restores (i : nat) (s s1 : State) :
  App.page (app s) = App.recipes ->
  App.selectedRecipe (app s) = None ->
  fire (ClickCard i) s = Some s1 ->
  (exists r recipe,
      child s = RecipesMounted r
      /\ nth_error (RecipesPage.filteredRecipes r) i = Some recipe
      /\ App.selectedRecipe (app s1) = Some recipe)
  /\ fire ClickClose s1 = Some s.
Proof.
  destruct s as [[pg q sel] c]. simpl. intros -> -> H.
  unfold fire in H. simpl in H. destruct c as [h|r]; simpl in H; [discriminate H|].
  destruct (nth_error (RecipesPage.filteredRecipes r) i) as [recipe|] eqn:E;
    [|discriminate H].
  destruct (RecipesPage.cardsShown r); [|discriminate H].
  inversion H; subst; clear H. split; [|reflexivity].
  exists r, recipe. repeat split. exact E.
Qed.

Lemma select_then_close_restores_witness :
  fire (ClickCard 0) soupListed = Some soupOpened
  /\ fire ClickClose soupOpened = Some soupListed.
Proof.
  split; [reflexivity|].
  exact (proj2 (select_then_close_restores 0 soupListed soupOpened
                  eq_refl eq_refl eq_refl)).
Defined.

End RecipesSessions.

(* ================================================================== *)
(** * Properties: what a response does to the recipes screen           *)
(* ================================================================== *)

Section Responses.

Import Json RecipeClient.

Variable P : Platform.

Lemma fetch_ok_unfold (r : Response) (before : Cells) :
  ok r = true ->
  fetchRecipes P r before
  = match Json.parse (cleanedText (bodyText r)) with
    | Some (JArray l) => mkCells (recipesWithIds l) false None
    | Some JNull => mkCells (recipes before) false (Some (nullPropertyMessage P))
    | Some _ => mkCells (recipes before) false (Some (notAFunctionMessage P))
    | None => mkCells (recipes before) false
                (Some (syntaxErrorMessage P (cleanedText (bodyText r))))
    end.
Proof.
  intros Hok. unfold fetchRecipes, fetchBody, bodyText. rewrite Hok.
  cbv [negb bind ret throw text consumeBody JSON_parse mapParsed].
  destruct (body r) as [t|];
    (destruct (Json.parse (cleanedText _)) as [[| | | | |]|]; reflexivity).
Qed.

(** X18. For every response whose cleaned text stays within the modelled
    strings, [fetchRecipes] ends with the loading flag off, and either with
    no error and the recipes of an ok response whose cleaned text parsed to
    an array, or with an error message and the recipes that the screen
    held before: a failure never empties or replaces the list. *)
Theorem fetch_ends_in_recipes_or_error (r : Response) (before : Cells) :
  Json.modelled (cleanedText (bodyText r)) = true ->
  isLoading (fetchRecipes P r before) = false
  /\ ((error (fetchRecipes P r before) = None
       /\ ok r = true
       /\ exists l, Json.parse (cleanedText (bodyText r)) = Some (JArray l)
                    /\ recipes (fetchRecipes P r before) = recipesWithIds l)
      \/ (exists m, error (fetchRecipes P r before) = Some m
                    /\ recipes (fetchRecipes P r before) = recipes before)).
Proof.
  intros _. destruct (ok r) eqn:Hok.
  - rewrite (fetch_ok_unfold r before Hok).
    destruct (Json.parse (cleanedText (bodyText r))) as [[| | | |l|]|]; simpl;
      (split; [reflexivity|]); eauto 6.
  - destruct (body r) as [t|] eqn:Hb.
    + rewrite (nonOk_displays_bodyUsed P r t before Hok Hb). simpl. eauto.
    + rewrite (nonOk_without_body P r before Hok Hb). simpl. eauto.
Qed.

(** X19. An ok response whose cleaned text stays within the modelled
    strings and is not JSON is surfaced as an error, with the message of
    the SyntaxError; the list is not emptied. *)
Theorem unparseable_response_is_an_error (r : Response) (before : Cells) :
  ok r = true ->
  Json.modelled (cleanedText (bodyText r)) = true ->
  Json.parse (cleanedText (bodyText r)) = None ->
  fetchRecipes P r before
  = mkCells (recipes before) false
      (Some (syntaxErrorMessage P (cleanedText (bodyText r)))).
Proof. intros Hok _ Hp. now rewrite (fetch_ok_unfold r before Hok), Hp. Qed.

(** X20. An ok response whose cleaned text is JSON but not an array (an
    object, a string, a number, [true], [false], [null]) is an error too:
    the call of [.map] fails and its message is shown. *)
Theorem non_array_response_is_an_error (r : Response) (before : Cells) (v : value) :
  ok r = true ->
  Json.parse (cleanedText (bodyText r)) = Some v ->
  match v with JArray _ => False | _ => True end ->
  fetchRecipes P r before
  = mkCells (recipes before) false
      (Some (match v with
             | JNull => nullPropertyMessage P
             | _ => notAFunctionMessage P
             end)).
Proof.
  intros Hok Hp Hv. rewrite (fetch_ok_unfold r before Hok), Hp.
  destruct v; try reflexivity. contradiction.
Qed.

(** X21. A response that is not ok never stores recipes, whatever its
    body holds.  With a body, the page shows the run-time's message for
    reading a body twice; only without a body does it show "Server
    returned status", the status and an empty text. *)
Theorem non_ok_response_is_an_error (r : Response) (before : Cells) :
  ok r = false ->
  fetchRecipes P r before
  = mkCells (recipes before) false
      (Some (match body r with
             | Some _ => bodyUsedMessage P
             | None => "Server returned status " ++ Js.numberToString (status r) ++ ": "
             end)).
Proof.
  intros Hok. destruct (body r) as [t|] eqn:Hb.
  - exact (nonOk_displays_bodyUsed P r t before Hok Hb).
  - exact (nonOk_without_body P r before Hok Hb).
Qed.

End Responses.

Lemma fetch_ends_in_recipes_or_error_witness :
  RecipeClient.isLoading (RecipeClient.fetchRecipes chromium twoRecipes loading) = false
  /\ ((RecipeClient.error (RecipeClient.fetchRecipes chromium twoRecipes loading) = None
       /\ RecipeClient.ok twoRecipes = true
       /\ exists l,
            Json.parse (RecipeClient.cleanedText (RecipeClient.bodyText twoRecipes))
            = Some (Json.JArray l)
            /\ RecipeClient.recipes (RecipeClient.fetchRecipes chromium twoRecipes loading)
               = RecipeClient.recipesWithIds l)
      \/ (exists m,
             RecipeClient.error (RecipeClient.fetchRecipes chromium twoRecipes loading)
             = Some m
             /\ RecipeClient.recipes (RecipeClient.fetchRecipes chromium twoRecipes loading)
                = RecipeClient.recipes loading)).
Proof.
  apply (fetch_ends_in_recipes_or_error chromium twoRecipes loading). reflexivity.
Defined.

Lemma unparseable_response_is_an_error_witness :
  RecipeClient.fetchRecipes chromium (RecipeClient.mkResponse 200 (Some "oops")) loading
  = RecipeClient.mkCells [] false (Some "Unexpected token in JSON").
Proof.
  apply (unparseable_response_is_an_error chromium
           (RecipeClient.mkResponse 200 (Some "oops")) loading); reflexivity.
Defined.

Lemma non_array_response_is_an_error_witness :
  RecipeClient.fetchRecipes chromium (RecipeClient.mkResponse 200 (Some "{}")) loading
  = RecipeClient.mkCells [] false (Some "parsedRecipes.map is not a function").
Proof.
  apply (non_array_response_is_an_error chromium
           (RecipeClient.mkResponse 200 (Some "{}")) loading (Json.JObject []));
    [reflexivity | reflexivity | exact I].
Defined.

Lemma non_ok_response_is_an_error_witness :
  RecipeClient.fetchRecipes chromium (RecipeClient.mkResponse 404 None) loading
  = RecipeClient.mkCells [] false (Some "Server returned status 404: ").
Proof.
  apply (non_ok_response_is_an_error chromium (RecipeClient.mkResponse 404 None) loading).
  reflexivity.
Defined.

Section Ids.

Import Json RecipeClient.

Lemma idOf_mapWithId (l : list value) :
  forall index,
    List.map idOf (mapWithId index l)
    = List.map (fun i => Some (JNumber (Z.of_nat i) 0)) (seq index (List.length l)).
Proof.
  induction l as [|v l IH]; intros index; simpl; [reflexivity|].
  now rewrite getProperty_define_same, IH.
Qed.

Lemma NoDup_map_injective {A B} (f : A -> B) (l : list A) :
  (forall x y, f x = f y -> x = y) -> NoDup l -> NoDup (List.map f l).
Proof.
  intros Hf H. induction H as [|x l Hx Hl IH]; simpl; constructor; [|assumption].
  rewrite in_map_iff. intros [y [Hy Hin]]. apply Hf in Hy. now subst.
Qed.

(** X22. The ids of a batch are its positions, whatever ids the response
    brought along, so no two recipes of a batch have the same id. *)
Theorem ids_are_positions_and_unique (parsedRecipes : list value) :
  List.map idOf (recipesWithIds parsedRecipes)
  = List.map (fun i => Some (JNumber (Z.of_nat i) 0)) (seq 0 (List.length parsedRecipes))
  /\ NoDup (List.map idOf (recipesWithIds parsedRecipes)).
Proof.
  unfold recipesWithIds. rewrite idOf_mapWithId. split; [reflexivity|].
  apply NoDup_map_injective; [|apply seq_NoDup].
  intros i j H. inversion H. lia.
Qed.

End Ids.

(* ================================================================== *)
(** * Properties: fences in odd places                                 *)
(* ================================================================== *)

Section OddFences.

Import Json RecipeClient.

Lemma replaceClosingFence_without (s : string) :
  endsWith "```" s = false -> replaceClosingFence s = s.
Proof.
  induction s as [|c s IH]; [reflexivity|].
  intros H. change (endsWith "```" (String c s))
    with ((String c s =? "```") || endsWith "```" s) in H.
  apply orb_false_iff in H as [H1 H2].
  rewrite replaceClosingFence_cons, H1. now rewrite (IH H2).
Qed.

(** X23. A text that neither begins with the opening fence nor ends with
    three backquotes comes out of the cleaning as it went in. *)
Theorem unfenced_text_is_left_alone (s : string) :
  stripPrefix "```json" s = None ->
  endsWith "```" s = false ->
  cleanedText s = s.
Proof.
  intros H1 H2. unfold cleanedText, replaceOpeningFence. rewrite H1.
  now apply replaceClosingFence_without.
Qed.

Lemma unfenced_text_is_left_alone_witness :
  cleanedText twoRecipesText = twoRecipesText.
Proof. apply (unfenced_text_is_left_alone twoRecipesText); reflexivity. Defined.

Lemma scanned_nonempty (B : string) (ts : list token) :
  lex B = Some ts -> ts <> [] ->
  exists c B', B = String c B' /\ ("`" =? c)%char = false.
Proof.
  intros H Hne. destruct B as [|c B']; [inversion H; congruence|].
  exists c, B'. split; [reflexivity|].
  destruct (Ascii.eqb_spec "`" c) as [<-|_]; [discriminate H | reflexivity].
Qed.

Lemma replaceClosingFence_scanned (B : string) (ts : list token) :
  lex B = Some ts -> replaceClosingFence B = B.
Proof.
  intros H. destruct (replaceClosingFence_cases B) as [E|[x E]]; [exact E|].
  subst B. rewrite lex_no_fence_at_end in H. discriminate H.
Qed.

(** X24. Each fence is taken off on its own: a body that JSON.parse
    accepts is parsed to the same value when only the opening fence stands
    before it, and when only the closing fence stands behind it. *)
Theorem single_fence_parses_alike (ws1 B ws2 : string) (v : value) :
  Json.parse B = Some v ->
  Js.allChars Js.isWhiteSpace ws1 = true ->
  Js.allChars isJsonSpace ws2 = true ->
  Json.parse (cleanedText ("```json" ++ ws1 ++ B)) = Some v
  /\ Json.parse (cleanedText (B ++ ws2 ++ "```")) = Some v.
Proof.
  intros Hp H1 H2. unfold Json.parse in Hp.
  destruct (lex B) as [ts|] eqn:HB; [|discriminate Hp].
  pose proof (parseTokens_nonempty ts v Hp) as Hne.
  destruct (trimStart_scanned B ts EmptyString HB Hne) as [_ Hl].
  split.
  - unfold cleanedText, replaceOpeningFence.
    change (stripPrefix "```json" ("```json" ++ ws1 ++ B)) with (Some (ws1 ++ B)).
    cbv beta iota. rewrite (trimStart_spaces ws1 B H1).
    rewrite (replaceClosingFence_scanned _ ts Hl). unfold Json.parse. now rewrite Hl.
  - destruct (scanned_nonempty B ts HB Hne) as [c [B' [E Hc]]].
    unfold cleanedText, replaceOpeningFence.
    assert (S : stripPrefix "```json" (B ++ ws2 ++ "```") = None).
    { rewrite E, append_cons. cbn [stripPrefix]. now rewrite Hc. }
    rewrite S, <- append_assoc, replaceClosingFence_app. unfold Json.parse, lex.
    now rewrite (run_append_spaces ws2 H2 _ _ ts HB).
Qed.

Lemma single_fence_parses_alike_witness :
  Json.parse (cleanedText ("```json" ++ lineFeed ++ twoRecipesText))
  = Some (JArray twoRecipesParsed)
  /\ Json.parse (cleanedText (twoRecipesText ++ lineFeed ++ "```"))
     = Some (JArray twoRecipesParsed).
Proof.
  apply (single_fence_parses_alike lineFeed twoRecipesText lineFeed); reflexivity.
Defined.

Lemma endsWith_append (suffix x y : string) :
  endsWith suffix (x ++ y) = false -> endsWith suffix y = false.
Proof.
  induction x as [|c x IH]; [trivial|].
  rewrite append_cons. intros H.
  change (endsWith suffix (String c (x ++ y)))
    with ((String c (x ++ y) =? suffix) || endsWith suffix (x ++ y)) in H.
  apply orb_false_iff in H as [_ H]. now apply IH.
Qed.

Lemma endsWith_trimStart (suffix s : string) :
  endsWith suffix s = false -> endsWith suffix (Js.trimStart s) = false.
Proof.
  induction s as [|c s IH]; [trivial|]. intros H. cbn [Js.trimStart].
  destruct (Js.isWhiteSpace c); [|exact H].
  apply IH. now apply (endsWith_append suffix (String c EmptyString) s).
Qed.

Lemma backquote_after_end (st : lstate) (ts : list token) (ws rest : string) :
  finish st = Some ts ->
  Js.allChars isJsonSpace ws = true ->
  run st (ws ++ String "`" rest) = None.
Proof.
  revert st ts. induction ws as [|c ws IH]; intros st ts Hf Hws.
  - simpl append. rewrite run_cons.
    destruct st as [| | | | |nst n]; simpl in Hf; try discriminate Hf; [reflexivity|].
    destruct nst; try discriminate Hf; reflexivity.
  - simpl in Hws. apply andb_true_iff in Hws as [Hc Hws].
    destruct (jsonSpace_in_number c Hc) as [Hd [Hp He]].
    rewrite append_cons, run_cons.
    destruct st as [| | | | |nst n]; simpl in Hf; try discriminate Hf.
    + change (step LStart c) with (start c). rewrite (jsonSpace_start c Hc).
      now rewrite (IH LStart [] eq_refl Hws).
    + destruct nst; try discriminate Hf;
        cbv [step stepNumber endNumber]; rewrite ?Hd, ?Hp, ?He, (jsonSpace_start c Hc);
        now rewrite (IH LStart [] eq_refl Hws).
Qed.

Lemma backquote_after_text (ws rest : string) :
  Js.allChars isJsonSpace ws = true ->
  forall s st ts, run st s = Some ts -> run st (s ++ ws ++ String "`" rest) = None.
Proof.
  intros Hws. induction s as [|c s IH]; intros st ts H.
  - simpl in H. simpl append. eapply backquote_after_end; eassumption.
  - rewrite append_cons, run_cons. rewrite run_cons in H.
    destruct (step st c) as [[toks st']|]; [|reflexivity].
    destruct (run st' s) as [r|] eqn:E; [|discriminate H].
    now rewrite (IH st' r E).
Qed.

(** Where a closing fence was left standing behind a body. *)
Lemma cleanedText_fence_left (ws1 B ws2 t : string) (ts : list token) :
  Js.allChars Js.isWhiteSpace ws1 = true ->
  lex B = Some ts -> ts <> [] ->
  endsWith "```" (fenced ws1 B ws2 ++ t) = false ->
  cleanedText (fenced ws1 B ws2 ++ t) = Js.trimStart B ++ ws2 ++ "```" ++ t.
Proof.
  intros H1 HB Hne He. unfold fenced in *.
  repeat rewrite append_assoc in *.
  apply (endsWith_append "```" "```json") in He.
  apply endsWith_trimStart in He.
  unfold cleanedText, replaceOpeningFence.
  change (stripPrefix "```json" ("```json" ++ ws1 ++ B ++ ws2 ++ "```" ++ t))
    with (Some (ws1 ++ B ++ ws2 ++ "```" ++ t)).
  cbv beta iota. rewrite (trimStart_spaces ws1 _ H1) in *.
  destruct (trimStart_scanned B ts (ws2 ++ "```" ++ t) HB Hne) as [E _].
  rewrite E in *. now apply replaceClosingFence_without.
Qed.

Variable P : Platform.

(** X25. The closing fence is taken off only where the text ends.  If
    anything follows it so that the text no longer ends with three
    backquotes (a line feed, say), the fence stays in the cleaned text,
    JSON.parse refuses it, and the recipes screen shows the SyntaxError
    instead of the recipes. *)
Theorem text_after_closing_fence_is_an_error
        (st : N) (ws1 B ws2 t : string) (v : value) (before : Cells) :
  Json.parse B = Some v ->
  Js.allChars Js.isWhiteSpace ws1 = true ->
  Js.allChars isJsonSpace ws2 = true ->
  endsWith "```" (fenced ws1 B ws2 ++ t) = false ->
  ok (mkResponse st (Some (fenced ws1 B ws2 ++ t))) = true ->
  fetchRecipes P (mkResponse st (Some (fenced ws1 B ws2 ++ t))) before
  = mkCells (recipes before) false
      (Some (syntaxErrorMessage P (Js.trimStart B ++ ws2 ++ "```" ++ t))).
Proof.
  intros Hp H1 H2 He Hok. unfold Json.parse in Hp.
  destruct (lex B) as [ts|] eqn:HB; [|discriminate Hp].
  pose proof (parseTokens_nonempty ts v Hp) as Hne.
  destruct (trimStart_scanned B ts EmptyString HB Hne) as [_ Hl].
  rewrite (fetch_ok_unfold P _ before Hok). cbn [bodyText body].
  rewrite (cleanedText_fence_left ws1 B ws2 t ts H1 HB Hne He).
  assert (F : Json.parse (Js.trimStart B ++ ws2 ++ "```" ++ t) = None).
  { unfold Json.parse, lex.
    change ("```" ++ t) with (String "`" ("``" ++ t)).
    now rewrite (backquote_after_text ws2 ("``" ++ t) H2 _ _ ts Hl). }
  now rewrite F.
Qed.

End OddFences.

Lemma text_after_closing_fence_is_an_error_witness :
  RecipeClient.fetchRecipes chromium
    (RecipeClient.mkResponse 200
       (Some (RecipeClient.fenced RecipeClient.lineFeed twoRecipesText RecipeClient.lineFeed
              ++ RecipeClient.lineFeed))) loading
  = RecipeClient.mkCells [] false (Some "Unexpected token in JSON").
Proof.
  apply (text_after_closing_fence_is_an_error chromium 200 RecipeClient.lineFeed
           twoRecipesText RecipeClient.lineFeed RecipeClient.lineFeed
           (Json.JArray twoRecipesParsed) loading); reflexivity.
Defined.

(* ================================================================== *)
(** * Properties: the recognition client                               *)
(* ================================================================== *)

Section Recognition.

Import Json RecipeClient RecognitionClient.

Variable P : Platform.
Variable notIterableMessage : string.

(** X26. When the recognition service refuses with a JSON body whose
    [error] is a non-empty string, exactly that string becomes the
    recognition error; the flag goes down, the store and the chosen photo
    stay. *)
Theorem recognition_error_is_shown
        (r : Response) (t : string) (props : list (string * value)) (m : string)
        (captured : list string) (s : HomePage.State) :
  ok r = false ->
  body r = Some t ->
  Json.parse t = Some (JObject props) ->
  getProperty "error" props = Some (JString m) ->
  m <> EmptyString ->
  finished P notIterableMessage r captured s = Some (HomePage.recognizeFailed m s)
  /\ HomePage.recognitionError (HomePage.recognizeFailed m s) = Some m
  /\ HomePage.isRecognizing (HomePage.recognizeFailed m s) = false
  /\ HomePage.ingredients (HomePage.recognizeFailed m s) = HomePage.ingredients s
  /\ HomePage.imageFile (HomePage.recognizeFailed m s) = HomePage.imageFile s.
Proof.
  intros Hok Hb Hp Hg Hm. split; [|repeat split].
  unfold finished, answer, recognizeBody. rewrite Hok.
  cbv [negb bind nonOkBranch json consumeBody JSON_parse RecognitionClient.serverError
       errorProperty ret throw].
  rewrite Hb, Hp. cbv beta iota. rewrite Hg. simpl.
  apply String.eqb_neq in Hm. now rewrite Hm.
Qed.

(** X27. When the recognition service answers with a JSON array of
    strings, the names are merged behind the store that the click
    captured, as they came; the chosen photo is cleared and the flag goes
    down. *)
Theorem recognition_names_are_merged
        (r : Response) (elements : list value) (names captured : list string)
        (s : HomePage.State) :
  ok r = true ->
  Json.parse (bodyText r) = Some (JArray elements) ->
  asStrings elements = Some names ->
  exists s',
    finished P notIterableMessage r captured s = Some s'
    /\ HomePage.ingredients s' = HomePage.mergeRecognized captured names
    /\ HomePage.imageFile s' = None
    /\ HomePage.isRecognizing s' = false.
Proof.
  intros Hok Hp Hs. exists (HomePage.recognizeSucceeded captured names s).
  split; [|repeat split].
  unfold finished, answer, recognizeBody. rewrite Hok.
  cbv [negb bind json consumeBody JSON_parse ret throw].
  unfold bodyText in Hp.
  destruct (body r); rewrite Hp; cbv [iterate ret fst]; rewrite Hs; reflexivity.
Qed.

End Recognition.

Lemma recognition_error_is_shown_witness :
  RecognitionClient.finished chromium "recognized is not iterable" refused ["rice"]
    HomePage.initial
  = Some (HomePage.recognizeFailed "model unavailable" HomePage.initial).
Proof.
  apply (recognition_error_is_shown chromium "recognized is not iterable" refused
           modelUnavailable [("error", Json.JString "model unavailable")]
           "model unavailable" ["rice"] HomePage.initial);
    [reflexivity | reflexivity | reflexivity | reflexivity | discriminate].
Defined.

Lemma recognition_names_are_merged_witness :
  exists s',
    RecognitionClient.finished chromium "recognized is not iterable" twoNames ["rice"]
      HomePage.initial = Some s'
    /\ HomePage.ingredients s' = HomePage.mergeRecognized ["rice"] ["Chicken"; "rice"]
    /\ HomePage.imageFile s' = None
    /\ HomePage.isRecognizing s' = false.
Proof.
  apply (recognition_names_are_merged chromium "recognized is not iterable" twoNames
           [Json.JString "Chicken"; Json.JString "rice"] ["Chicken"; "rice"] ["rice"]
           HomePage.initial); reflexivity.
Defined.

(* ================================================================== *)
(** * Properties: the placeholder image                                *)
(* ================================================================== *)

Section Placeholder.

Lemma replaceWhiteSpace_length (s : string) :
  String.length (Js.replaceWhiteSpace s) = String.length s.
Proof. induction s as [|c s IH]; simpl; [reflexivity | now rewrite IH]. Qed.

Lemma replaceWhiteSpace_clean (s : string) :
  Js.allChars (fun c => negb (Js.isWhiteSpace c)) (Js.replaceWhiteSpace s) = true.
Proof.
  induction s as [|c s IH]; [reflexivity|].
  cbn [Js.replaceWhiteSpace Js.allChars]. rewrite IH, andb_true_r.
  destruct (Js.isWhiteSpace c) eqn:W; [reflexivity | now rewrite W].
Qed.

Lemma replaceWhiteSpace_of_clean (s : string) :
  Js.allChars (fun c => negb (Js.isWhiteSpace c)) s = true ->
  Js.replaceWhiteSpace s = s.
Proof.
  induction s as [|c s IH]; [reflexivity|].
  cbn [Js.replaceWhiteSpace Js.allChars]. intros H.
  apply andb_true_iff in H as [Hc Hs]. apply negb_true_iff in Hc.
  now rewrite Hc, (IH Hs).
Qed.

Lemma replaceWhiteSpace_get (s : string) :
  forall i,
    String.get i (Js.replaceWhiteSpace s)
    = match String.get i s with
      | Some c => Some (if Js.isWhiteSpace c then "+"%char else c)
      | None => None
      end.
Proof.
  induction s as [|c s IH]; intros i; [reflexivity|].
  destruct i as [|i]; [reflexivity|]. cbn [Js.replaceWhiteSpace String.get]. apply IH.
Qed.

(** X28. The text that a card hands to the placeholder service, behind
    the fixed address, is the title with a plus at each place where the
    title has a white-space code unit and the title's own code unit at
    every other place: it has the title's length and no white space, and a
    title without white space is handed over as it is. *)
Theorem image_text_has_no_white_space (title : string) :
  RecipeCard.imageSrc title
  = "https://placehold.co/600x400/52525b/FFFFFF?text=" ++ Js.replaceWhiteSpace title
  /\ (forall i,
        String.get i (Js.replaceWhiteSpace title)
        = match String.get i title with
          | Some c => Some (if Js.isWhiteSpace c then "+"%char else c)
          | None => None
          end)
  /\ String.length (Js.replaceWhiteSpace title) = String.length title
  /\ Js.allChars (fun c => negb (Js.isWhiteSpace c)) (Js.replaceWhiteSpace title) = true
  /\ (Js.allChars (fun c => negb (Js.isWhiteSpace c)) title = true ->
      Js.replaceWhiteSpace title = title).
Proof.
  split; [reflexivity|]. split; [apply replaceWhiteSpace_get|].
  split; [apply replaceWhiteSpace_length|].
  split; [apply replaceWhiteSpace_clean | apply replaceWhiteSpace_of_clean].
Qed.

End Placeholder.

(* ================================================================== *)
(** * Properties: what a session keeps                                 *)
(* ================================================================== *)

Section SessionInvariants.

Import Ui.

(** X29. In a session in which no recognized names arrive, whatever is
    typed, picked and removed, the store on the home screen holds
    normalized entries only (trimmed, lower case) and no two entries that
    are equal up to case. *)
Theorem store_stays_normalized_without_recognition
        (es : list Event) (s : State) (h : HomePage.State) :
  Forall notRecognition es ->
  run es initial = Some s ->
  child s = HomeMounted h ->
  Forall HomePage.normalized (HomePage.ingredients h)
  /\ HomePage.noCaseDuplicates (HomePage.ingredients h)
  /\ NoDup (HomePage.ingredients h).
Proof.
  intros Hes Hrun Hc.
  destruct (add_paths_keep_store es s h Hes Hrun Hc) as [Hn Hd].
  repeat split; try assumption.
  apply NoDup_nth_error. intros i j Hi Hj.
  destruct (nth_error (HomePage.ingredients h) i) as [a|] eqn:Ea;
    [|apply nth_error_Some in Hi; congruence].
  symmetry in Hj. exact (Hd i j a a Ea Hj eq_refl).
Qed.

Lemma store_stays_normalized_without_recognition_witness :
  Forall HomePage.normalized ["chicken"; "rice"]
  /\ HomePage.noCaseDuplicates ["chicken"; "rice"]
  /\ NoDup ["chicken"; "rice"].
Proof.
  apply (store_stays_normalized_without_recognition
           [TypeInput " Chicken"; SubmitAdd; ClickPopular 2; TypeInput "RICE"; SubmitAdd;
            ClickPopular 0]
           (mkState App.initial
              (HomeMounted (HomePage.setInputValue "RICE"
                 (HomePage.setIngredients ["chicken"; "rice"] HomePage.initial))))
           (HomePage.setInputValue "RICE"
              (HomePage.setIngredients ["chicken"; "rice"] HomePage.initial))).
  - repeat constructor.
  - reflexivity.
  - reflexivity.
Defined.

(** X30. At every moment of a session, also before the filter effect
    has run, the list on the recipes screen is a part of the fetched list,
    in the fetched order; and whenever the effect runs, the list becomes
    what the filter makes of the recipes, the selection and the bound that
    the screen holds at that moment, all of which the effect leaves as they
    are. *)
Theorem shown_list_follows_the_criteria (s : State) (r : RecipesPage.State) :
  reachable s -> child s = RecipesMounted r ->
  Subsequence (RecipesPage.filteredRecipes r) (RecipesPage.recipes r)
  /\ exists s' r',
       fire FilterEffect s = Some s'
       /\ child s' = RecipesMounted r'
       /\ app s' = app s
       /\ RecipesPage.recipes r' = RecipesPage.recipes r
       /\ RecipesPage.difficultyFilter r' = RecipesPage.difficultyFilter r
       /\ RecipesPage.maxTimeFilter r' = RecipesPage.maxTimeFilter r
       /\ RecipesPage.filteredRecipes r'
          = RecipesPage.filterEffect (RecipesPage.recipes r)
              (RecipesPage.difficultyFilter r) (RecipesPage.maxTimeFilter r)
       /\ fire FilterEffect s' = Some s'.
Proof.
  intros Hr Hc. destruct (reachable_recipesScreenOk s r Hr Hc) as [Hf _].
  split; [exact Hf|].
  destruct s as [a c]. simpl in Hc. subst c.
  exists (mkState a (RecipesMounted (RecipesPage.runFilterEffect r))),
    (RecipesPage.runFilterEffect r).
  repeat split.
Qed.

Lemma shown_list_follows_the_criteria_witness :
  Subsequence
    (RecipesPage.filteredRecipes (RecipesPage.fetchLoaded [soup] RecipesPage.initial))
    [soup]
  /\ fire FilterEffect
       (mkState (App.handleFindRecipes ["rice"] [] 2 "Any" App.initial)
          (RecipesMounted (RecipesPage.fetchLoaded [soup] RecipesPage.initial)))
     = Some soupListed.
Proof.
  destruct (shown_list_follows_the_criteria
              (mkState (App.handleFindRecipes ["rice"] [] 2 "Any" App.initial)
                 (RecipesMounted (RecipesPage.fetchLoaded [soup] RecipesPage.initial)))
              (RecipesPage.fetchLoaded [soup] RecipesPage.initial)
              (ex_intro _ [TypeInput "Rice"; SubmitAdd; ClickFind; FetchLoaded [soup]]
                 eq_refl)
              eq_refl) as [H _].
  split; [exact H | reflexivity].
Defined.

End SessionInvariants.
